(** * Traits: bounded, rate-driven numeric attributes (evennia/contrib/traits.py)

    A shallow embedding of the trait records, the four trait classes
    ([Trait], [StaticTrait], [CounterTrait], [GaugeTrait]) and the
    [TraitHandler], followed by the properties established about them.

    Modelling choices.
    - A trait record ([self._data], one entry of [trait_data]) is a Python
      dict with string keys: a [gmap string pyval].
    - Python numbers are the unbounded integers ([VInt]); floats are not
      modelled, so the clock ([time()]) is an integer number of seconds. An
      operation that reads the clock receives the reading as the argument
      [now]; the clock does not advance while one operation runs.
    - Every method is a function from the record to an outcome (a value or
      the exception raised) paired with the record as the method leaves it:
      what was written before an exception is raised stays written. *)

From Stdlib Require Import ZArith Ascii String List Bool Lia.
From stdpp Require Import base option gmap strings list fin_maps.

Local Open Scope string_scope.
Local Open Scope Z_scope.

(** ** Python values *)

(** The values a record field holds: [None], an integer, a string, a dict
    literal (used for [descs]) and the class object [MandatoryTraitKey]
    that marks a key without default. *)
#[warnings="-register-all"]
Inductive pyval : Type :=
| VNone
| VInt (n : Z)
| VStr (s : string)
| VDict (items : list (pyval * pyval))
| VMandatory.

(** The structured content of a [TraitException]; the message texts of the
    source are built with a formatting helper that lives outside this
    module, so the model keeps what each message is built from. *)
Inductive trait_error : Type :=
| MissesRequiredKeys (trait_type : string) (keys : list string)
| DescsMalformed
| MaxNotSettable
| MaxNotResettable
| MandatoryKeyNotDeletable (key : string)
| TraitAlreadyExists (key : string)
| TraitTypeInvalid (trait_type : string)
| TraitNotFound (key : string)
| TraitClassNotFound (what : string)
| NotSettableDirectly (key : string) (valid_keys : list string).

Inductive exn : Type :=
| TraitException (e : trait_error)
| AttributeError (key : string)
| KeyError (key : string)
| TypeError.

(** [v is None] *)
Definition is_none (v : pyval) : bool :=
  match v with VNone => true | _ => false end.

(** [type(v) in (int, float)], also [isinstance(v, (int, float))]. *)
Definition is_number (v : pyval) : bool :=
  match v with VInt _ => true | _ => false end.

(** [isinstance(v, str)] *)
Definition is_str (v : pyval) : bool :=
  match v with VStr _ => true | _ => false end.

(** [v != 0]: only the number zero equals [0]. *)
Definition ne_zero (v : pyval) : bool :=
  match v with VInt n => negb (n =? 0) | _ => true end.

(** [v == MandatoryTraitKey] *)
Definition is_mandatory (v : pyval) : bool :=
  match v with VMandatory => true | _ => false end.

(** Truthiness, as [if not name] uses it. *)
Definition truthy (v : pyval) : bool :=
  match v with
  | VNone => false
  | VInt n => negb (n =? 0)
  | VStr s => negb (String.eqb s EmptyString)
  | VDict l => match l with [] => false | _ => true end
  | VMandatory => true
  end.

Fixpoint str_repeat (n : nat) (s : string) : string :=
  match n with O => EmptyString | S k => (s ++ str_repeat k s)%string end.

(** Arithmetic and comparison raise [TypeError] on operands Python rejects. *)
Definition py_add (a b : pyval) : exn + pyval :=
  match a, b with
  | VInt x, VInt y => inr (VInt (x + y))
  | VStr s, VStr t => inr (VStr (s ++ t)%string)
  | _, _ => inl TypeError
  end.

Definition py_sub (a b : pyval) : exn + pyval :=
  match a, b with
  | VInt x, VInt y => inr (VInt (x - y))
  | _, _ => inl TypeError
  end.

Definition py_mul (a b : pyval) : exn + pyval :=
  match a, b with
  | VInt x, VInt y => inr (VInt (x * y))
  | VStr s, VInt n | VInt n, VStr s => inr (VStr (str_repeat (Z.to_nat n) s))
  | _, _ => inl TypeError
  end.

Definition py_lt (a b : pyval) : exn + bool :=
  match a, b with
  | VInt x, VInt y => inr (x <? y)
  | VStr s, VStr t => inr (String.ltb s t)
  | _, _ => inl TypeError
  end.

Definition py_le (a b : pyval) : exn + bool :=
  match a, b with
  | VInt x, VInt y => inr (x <=? y)
  | VStr s, VStr t => inr (String.leb s t)
  | _, _ => inl TypeError
  end.

Definition py_gt (a b : pyval) : exn + bool := py_lt b a.
Definition py_ge (a b : pyval) : exn + bool := py_le b a.

(** ** Methods as record transformers *)

Definition outcome (A : Type) : Type := (exn + A)%type.

(** A method over a state [S]: its outcome and the state it leaves. *)
Definition method (S A : Type) : Type := S -> outcome A * S.

Definition ret {S A} (a : A) : method S A := fun s => (inr a, s).
Definition raise {S A} (e : exn) : method S A := fun s => (inl e, s).
Definition bind {S A B} (m : method S A) (k : A -> method S B) : method S B :=
  fun s => match m s with
           | (inr a, s') => k a s'
           | (inl e, s') => (inl e, s')
           end.
Definition lift {S A} (o : outcome A) : method S A := fun s => (o, s).
Definition gets {S A} (f : S -> A) : method S A := fun s => (inr (f s), s).
Definition modify {S} (f : S -> S) : method S unit := fun s => (inr tt, f s).

Declare Scope method_scope.
Delimit Scope method_scope with method.
Notation "x <- m ;; k" := (bind m (fun x => k))
  (at level 100, m at next level, right associativity) : method_scope.
Notation "m ;;; k" := (bind m (fun _ => k))
  (at level 100, right associativity) : method_scope.
Local Open Scope method_scope.

(** [try: m except AttributeError: h] *)
Definition try_attribute_error {S A} (m : method S A) (h : method S A) : method S A :=
  fun s => match m s with
           | (inl (AttributeError _), s') => h s'
           | r => r
           end.

(** [x and y] on booleans, the right operand evaluated only when needed. *)
Definition and_then {S} (a : bool) (m : method S bool) : method S bool :=
  if a then m else ret false.
Definition or_else {S} (a : bool) (m : method S bool) : method S bool :=
  if a then ret true else m.

(** ** Trait records *)

Abbreviation record := (gmap string pyval).

(** [self._data[key]] *)
Definition item (key : string) : method record pyval :=
  fun d => match d !! key with
           | Some v => (inr v, d)
           | None => (inl (KeyError key), d)
           end.

(** [self._data[key] = v] *)
Definition set_item (key : string) (v : pyval) : method record unit :=
  modify (insert key v).

(** [del self._data[key]] *)
Definition del_item (key : string) : method record unit :=
  fun d => match d !! key with
           | Some _ => (inr tt, delete key d)
           | None => (inl (KeyError key), d)
           end.

(** [Trait.__getattr__] past its first test, as it runs for every name
    other than the four class attributes (see [Trait___getattr__] for the
    whole method): the record entry, or [AttributeError]. The message of the
    error is formatted from [self._data["name"]], so on a record that has
    lost its ["name"] the [KeyError] of that lookup is what gets raised. *)
Definition getattr_data (key : string) : method record pyval :=
  fun d => match d !! key with
           | Some v => (inr v, d)
           | None =>
             match d !! "name" with
             | Some _ => (inl (AttributeError key), d)
             | None => (inl (KeyError "name"), d)
             end
           end.

(** [key in d] *)
Definition has_key (key : string) (d : record) : bool :=
  match d !! key with Some _ => true | None => false end.

(** ** Trait classes *)

(** What [validate_input] and the handler read off a trait class: its
    [trait_type], its [default_keys] (in declaration order, a default of
    [VMandatory] marking a required key), [allow_extra_properties], and
    whether it inherits [CounterTrait.validate_input]. *)
Record trait_class : Type := {
  trait_type : string;
  default_keys : list (string * pyval);
  allow_extra_properties : bool;
  counter_validation : bool
}.

(** The four classes of the module. [GaugeTrait] has no ["max"] key. *)
Inductive builtin : Type := TraitCls | StaticCls | CounterCls | GaugeCls.

Definition Trait_class : trait_class :=
  {| trait_type := "trait";
     default_keys := [("value", VNone)];
     allow_extra_properties := true;
     counter_validation := false |}.

Definition StaticTrait_class : trait_class :=
  {| trait_type := "static";
     default_keys := [("base", VInt 0); ("mod", VInt 0)];
     allow_extra_properties := true;
     counter_validation := false |}.

Definition CounterTrait_class : trait_class :=
  {| trait_type := "counter";
     default_keys := [("base", VInt 0); ("mod", VInt 0); ("min", VNone);
                      ("max", VNone); ("descs", VNone); ("rate", VInt 0);
                      ("ratetarget", VNone)];
     allow_extra_properties := true;
     counter_validation := true |}.

Definition GaugeTrait_class : trait_class :=
  {| trait_type := "gauge";
     default_keys := [("base", VInt 0); ("mod", VInt 0); ("min", VInt 0);
                      ("descs", VNone); ("rate", VInt 0); ("ratetarget", VNone)];
     allow_extra_properties := true;
     counter_validation := true |}.

Definition class_of (b : builtin) : trait_class :=
  match b with
  | TraitCls => Trait_class
  | StaticCls => StaticTrait_class
  | CounterCls => CounterTrait_class
  | GaugeCls => GaugeTrait_class
  end.

(** [cls.default_keys[key]] *)
Fixpoint default_of (keys : list (string * pyval)) (key : string) : option pyval :=
  match keys with
  | [] => None
  | (k, v) :: rest => if String.eqb k key then Some v else default_of rest key
  end.

Definition str_in (key : string) (l : list string) : bool :=
  existsb (String.eqb key) l.

(** ** Validation *)

(** [Trait.validate_input(cls, trait_data)]. The dict is completed in place
    and returned; the model returns nothing and leaves the completed dict as
    the state. The source collects the missing keys in a set, so the order
    in which the message lists them is not fixed; the model lists them in
    declaration order. *)
Definition Trait_validate_input (cls : trait_class) : method record unit :=
  inp <- gets (fun d key => has_key key d) ;;
  let unsets := List.filter (fun key => negb (inp key)) ["name"; "trait_type"] in
  match unsets with
  | _ :: _ => raise (TraitException (MissesRequiredKeys (trait_type cls) unsets))
  | [] =>
    let req := map fst (default_keys cls) in
    let unset_defaults :=
      List.filter (fun kv => negb (inp (fst kv))) (default_keys cls) in
    if existsb (fun kv => is_mandatory (snd kv)) unset_defaults then
      raise (TraitException (MissesRequiredKeys (trait_type cls)
               (map fst (List.filter (fun kv => is_mandatory (snd kv)) unset_defaults))))
    else
      modify (fun d => foldr (fun kv acc => <[fst kv := snd kv]> acc) d unset_defaults) ;;;
      if negb (allow_extra_properties cls) then
        modify (filter (fun kv : string * pyval =>
                  str_in (fst kv) req = true \/ str_in (fst kv) ["name"; "trait_type"] = true))
      else ret tt
  end.

(** The check on one [descs] entry: a number bound to a string. *)
Definition desc_entry_ok (kv : pyval * pyval) : bool :=
  is_number (fst kv) && is_str (snd kv).

(** [CounterTrait.validate_input(cls, trait_data)], inherited by
    [GaugeTrait]; [now] is the reading of [time()]. *)
Definition CounterTrait_validate_input (now : Z) (cls : trait_class) : method record unit :=
  Trait_validate_input cls ;;;
  descs <- item "descs" ;;
  (match descs with
   | VDict items =>
     if existsb (fun kv => negb (desc_entry_ok kv)) items
     then raise (TraitException DescsMalformed) else ret tt
   | _ => ret tt
   end) ;;;
  rate <- item "rate" ;;
  if ne_zero rate then set_item "last_update" (VInt now)
  else set_item "last_update" VNone.

(** [cls.validate_input(cls, trait_data)] *)
Definition validate_input (now : Z) (cls : trait_class) : method record unit :=
  if counter_validation cls then CounterTrait_validate_input now cls
  else Trait_validate_input cls.

(** [cls.default_keys[key]] read inside a method. *)
Definition class_default (cls : trait_class) (key : string) : method record pyval :=
  match default_of (default_keys cls) key with
  | Some v => ret v
  | None => raise (KeyError key)
  end.

(** [min(a, b)] and [max(a, b)] of Python: the first argument wins a tie. *)
Definition py_min (a b : pyval) : outcome pyval :=
  match py_lt b a with
  | inr lt => inr (if lt then b else a)
  | inl e => inl e
  end.

Definition py_max (a b : pyval) : outcome pyval :=
  match py_gt b a with
  | inr gt => inr (if gt then b else a)
  | inl e => inl e
  end.

(** ** CounterTrait and GaugeTrait *)

(** [GaugeTrait] inherits from [CounterTrait]: the inherited methods call
    [self.min], [self.max], [self._enforce_boundaries] and [self.value] on
    the dynamic class of [self], which this tag records. *)
Inductive counter_kind : Type := IsCounter | IsGauge.

(** Property getters. *)
Definition CounterTrait_base : method record pyval := item "base".
Definition CounterTrait_mod : method record pyval := item "mod".
Definition CounterTrait_min : method record pyval := item "min".
Definition CounterTrait_max : method record pyval := item "max".

Definition GaugeTrait_base : method record pyval := item "base".
Definition GaugeTrait_mod : method record pyval := item "mod".

Definition GaugeTrait_min : method record pyval :=
  val <- item "min" ;;
  if is_none val then class_default GaugeTrait_class "min" else ret val.

(** "The max is always base + mod." *)
Definition GaugeTrait_max : method record pyval :=
  b <- GaugeTrait_base ;;
  m <- GaugeTrait_mod ;;
  lift (py_add b m).

Definition self_min (self : counter_kind) : method record pyval :=
  match self with IsCounter => CounterTrait_min | IsGauge => GaugeTrait_min end.
Definition self_max (self : counter_kind) : method record pyval :=
  match self with IsCounter => CounterTrait_max | IsGauge => GaugeTrait_max end.
Definition self_base (self : counter_kind) : method record pyval :=
  match self with IsCounter => CounterTrait_base | IsGauge => GaugeTrait_base end.
Definition self_mod (self : counter_kind) : method record pyval :=
  match self with IsCounter => CounterTrait_mod | IsGauge => GaugeTrait_mod end.

(** [self.rate]: no class defines a [rate] property, so the read goes
    through [Trait.__getattr__]. *)
Definition self_rate : method record pyval := getattr_data "rate".

(** [CounterTrait._within_boundaries] *)
Definition _within_boundaries (self : counter_kind) (value : pyval) : method record bool :=
  lo <- self_min self ;;
  below <- and_then (negb (is_none lo)) (lift (py_le value lo)) ;;
  outside <- or_else below
               (hi <- self_max self ;;
                and_then (negb (is_none hi)) (lift (py_ge value hi))) ;;
  ret (negb outside).

(** [CounterTrait._enforce_boundaries] *)
Definition CounterTrait__enforce_boundaries (value : pyval) : method record pyval :=
  lo <- CounterTrait_min ;;
  below <- and_then (negb (is_none lo)) (lift (py_le value lo)) ;;
  if below then ret lo else
  hi <- CounterTrait_max ;;
  above <- and_then (negb (is_none hi)) (lift (py_ge value hi)) ;;
  if above then ret hi else ret value.

(** [GaugeTrait._enforce_boundaries] *)
Definition GaugeTrait__enforce_boundaries (value : pyval) : method record pyval :=
  lo <- GaugeTrait_min ;;
  below <- and_then (negb (is_none lo)) (lift (py_le value lo)) ;;
  if below then ret lo else
  m <- GaugeTrait_mod ;;
  b <- GaugeTrait_base ;;
  top <- lift (py_add m b) ;;
  lift (py_min top value).

Definition _enforce_boundaries (self : counter_kind) (value : pyval) : method record pyval :=
  match self with
  | IsCounter => CounterTrait__enforce_boundaries value
  | IsGauge => GaugeTrait__enforce_boundaries value
  end.

(** [CounterTrait._passed_ratetarget] *)
Definition _passed_ratetarget (value : pyval) : method record bool :=
  ratetarget <- item "ratetarget" ;;
  and_then (negb (is_none ratetarget))
    (rate <- self_rate ;;
     falling <- lift (py_lt rate (VInt 0)) ;;
     down <- and_then falling (lift (py_le value ratetarget)) ;;
     or_else down
       (rate <- self_rate ;;
        rising <- lift (py_gt rate (VInt 0)) ;;
        and_then rising (lift (py_ge value ratetarget)))).

(** [CounterTrait._stop_timer] *)
Definition _stop_timer : method record unit :=
  rate <- self_rate ;;
  active <- and_then (ne_zero rate)
              (last_update <- item "last_update" ;; ret (negb (is_none last_update))) ;;
  if active then set_item "last_update" VNone else ret tt.

(** [CounterTrait._check_and_start_timer] *)
Definition _check_and_start_timer (now : Z) (self : counter_kind) (value : pyval)
  : method record pyval :=
  rate <- self_rate ;;
  idle <- and_then (ne_zero rate)
            (last_update <- item "last_update" ;; ret (is_none last_update)) ;;
  (if idle then
     item "ratetarget" ;;;
     inside <- _within_boundaries self value ;;
     start <- and_then inside (passed <- _passed_ratetarget value ;; ret (negb passed)) ;;
     if start then set_item "last_update" (VInt now) else ret tt
   else ret tt) ;;;
  ret value.

(** [rate != 0 and self._data["last_update"] is not None] *)
Definition timer_active (rate : pyval) : method record bool :=
  and_then (ne_zero rate)
    (last_update <- item "last_update" ;; ret (negb (is_none last_update))).

(** [CounterTrait._update_current] *)
Definition CounterTrait__update_current (now : Z) (current : pyval) : method record pyval :=
  rate <- self_rate ;;
  active <- timer_active rate ;;
  if active then
    last_update <- item "last_update" ;;
    tdiff <- lift (py_sub (VInt now) last_update) ;;
    step <- lift (py_mul rate tdiff) ;;
    current <- lift (py_add current step) ;;
    m <- CounterTrait_mod ;;
    value <- lift (py_add current m) ;;
    passed <- _passed_ratetarget value ;;
    current <-
      (if passed then
         ratetarget <- item "ratetarget" ;;
         m <- CounterTrait_mod ;;
         clamped <- lift (py_sub ratetarget m) ;;
         _stop_timer ;;;
         ret clamped
       else
         inside <- _within_boundaries IsCounter value ;;
         if negb inside then
           bound <- CounterTrait__enforce_boundaries value ;;
           m <- CounterTrait_mod ;;
           clamped <- lift (py_sub bound m) ;;
           _stop_timer ;;;
           ret clamped
         else
           set_item "last_update" (VInt now) ;;;
           ret current) ;;
    set_item "current" current ;;;
    ret current
  else ret current.

(** [GaugeTrait._update_current] *)
Definition GaugeTrait__update_current (now : Z) (current : pyval) : method record pyval :=
  rate <- self_rate ;;
  active <- timer_active rate ;;
  if active then
    last_update <- item "last_update" ;;
    tdiff <- lift (py_sub (VInt now) last_update) ;;
    step <- lift (py_mul rate tdiff) ;;
    current <- lift (py_add current step) ;;
    let value := current in
    passed <- _passed_ratetarget value ;;
    current <-
      (if passed then
         ratetarget <- item "ratetarget" ;;
         _stop_timer ;;;
         ret ratetarget
       else
         inside <- _within_boundaries IsGauge value ;;
         if negb inside then
           bound <- GaugeTrait__enforce_boundaries value ;;
           _stop_timer ;;;
           ret bound
         else
           set_item "last_update" (VInt now) ;;;
           ret current) ;;
    set_item "current" current ;;;
    ret current
  else ret current.

(** [self._data.get(key, dflt)]; Python evaluates [dflt] before the call. *)
Definition item_or (key : string) (dflt : pyval) : method record pyval :=
  gets (fun d => default dflt (d !! key)).

(** *** CounterTrait properties *)

(** [CounterTrait.base] setter *)
Definition CounterTrait_set_base (value : pyval) : method record unit :=
  (if is_none value then
     dflt <- class_default CounterTrait_class "base" ;; set_item "base" dflt
   else ret tt) ;;;
  if is_number value then
    lo <- CounterTrait_min ;;
    under <- and_then (negb (is_none lo))
               (m <- CounterTrait_mod ;; total <- lift (py_add value m) ;;
                lo <- CounterTrait_min ;; lift (py_lt total lo)) ;;
    value <- (if under then
                lo <- CounterTrait_min ;; m <- CounterTrait_mod ;; lift (py_sub lo m)
              else ret value) ;;
    hi <- CounterTrait_max ;;
    over <- and_then (negb (is_none hi))
              (m <- CounterTrait_mod ;; total <- lift (py_add value m) ;;
               hi <- CounterTrait_max ;; lift (py_gt total hi)) ;;
    value <- (if over then
                hi <- CounterTrait_max ;; m <- CounterTrait_mod ;; lift (py_sub hi m)
              else ret value) ;;
    set_item "base" value
  else ret tt.

(** [CounterTrait.mod] setter *)
Definition CounterTrait_set_mod (value : pyval) : method record unit :=
  if is_none value then
    dflt <- class_default CounterTrait_class "mod" ;; set_item "mod" dflt
  else if is_number value then
    lo <- CounterTrait_min ;;
    under <- and_then (negb (is_none lo))
               (b <- CounterTrait_base ;; total <- lift (py_add value b) ;;
                lo <- CounterTrait_min ;; lift (py_lt total lo)) ;;
    value <- (if under then
                lo <- CounterTrait_min ;; b <- CounterTrait_base ;; lift (py_sub lo b)
              else ret value) ;;
    hi <- CounterTrait_max ;;
    over <- and_then (negb (is_none hi))
              (b <- CounterTrait_base ;; total <- lift (py_add value b) ;;
               hi <- CounterTrait_max ;; lift (py_gt total hi)) ;;
    value <- (if over then
                hi <- CounterTrait_max ;; b <- CounterTrait_base ;; lift (py_sub hi b)
              else ret value) ;;
    set_item "mod" value
  else ret tt.

(** [CounterTrait.min] setter *)
Definition CounterTrait_set_min (value : pyval) : method record unit :=
  if is_none value then set_item "min" value
  else if is_number value then
    hi <- CounterTrait_max ;;
    value <- (if negb (is_none hi) then
                hi <- CounterTrait_max ;; lift (py_min hi value)
              else ret value) ;;
    b <- CounterTrait_base ;;
    m <- CounterTrait_mod ;;
    total <- lift (py_add b m) ;;
    floor <- lift (py_min value total) ;;
    set_item "min" floor
  else ret tt.

(** [CounterTrait.max] setter *)
Definition CounterTrait_set_max (value : pyval) : method record unit :=
  if is_none value then set_item "max" value
  else if is_number value then
    lo <- CounterTrait_min ;;
    value <- (if negb (is_none lo) then
                lo <- CounterTrait_min ;; lift (py_max lo value)
              else ret value) ;;
    b <- CounterTrait_base ;;
    m <- CounterTrait_mod ;;
    total <- lift (py_add b m) ;;
    ceiling <- lift (py_max value total) ;;
    set_item "max" ceiling
  else ret tt.

(** [CounterTrait.current] getter *)
Definition CounterTrait_current (now : Z) : method record pyval :=
  b <- CounterTrait_base ;;
  stored <- item_or "current" b ;;
  CounterTrait__update_current now stored.

(** [CounterTrait.current] setter *)
Definition CounterTrait_set_current (now : Z) (value : pyval) : method record unit :=
  if is_number value then
    bounded <- CounterTrait__enforce_boundaries value ;;
    checked <- _check_and_start_timer now IsCounter bounded ;;
    set_item "current" checked
  else ret tt.

(** [CounterTrait.current] deleter: "reset back to base" *)
Definition CounterTrait_del_current : method record unit :=
  b <- CounterTrait_base ;; set_item "current" b.

(** [CounterTrait.value] *)
Definition CounterTrait_value (now : Z) : method record pyval :=
  current <- CounterTrait_current now ;;
  m <- CounterTrait_mod ;;
  total <- lift (py_add current m) ;;
  CounterTrait__enforce_boundaries total.

(** *** GaugeTrait properties *)

(** [GaugeTrait.base] setter: "Limit so base+mod can never go below min." *)
Definition GaugeTrait_set_base (value : pyval) : method record unit :=
  if is_number value then
    m <- GaugeTrait_mod ;;
    total <- lift (py_add value m) ;;
    lo <- GaugeTrait_min ;;
    under <- lift (py_lt total lo) ;;
    value <- (if under then
                lo <- GaugeTrait_min ;; m <- GaugeTrait_mod ;; lift (py_sub lo m)
              else ret value) ;;
    set_item "base" value
  else ret tt.

(** [GaugeTrait.mod] setter *)
Definition GaugeTrait_set_mod (value : pyval) : method record unit :=
  if is_number value then
    b <- GaugeTrait_base ;;
    total <- lift (py_add value b) ;;
    lo <- GaugeTrait_min ;;
    under <- lift (py_lt total lo) ;;
    value <- (if under then
                lo <- GaugeTrait_min ;; b <- GaugeTrait_base ;; lift (py_sub lo b)
              else ret value) ;;
    set_item "mod" value
  else ret tt.

(** [GaugeTrait.min] setter *)
Definition GaugeTrait_set_min (value : pyval) : method record unit :=
  if is_none value then
    dflt <- class_default GaugeTrait_class "min" ;; set_item "min" dflt
  else if is_number value then
    b <- GaugeTrait_base ;;
    m <- GaugeTrait_mod ;;
    total <- lift (py_add b m) ;;
    floor <- lift (py_min value total) ;;
    set_item "min" floor
  else ret tt.

(** [GaugeTrait.max] setter and deleter: both only raise. *)
Definition GaugeTrait_set_max (value : pyval) : method record unit :=
  raise (TraitException MaxNotSettable).

Definition GaugeTrait_del_max : method record unit :=
  raise (TraitException MaxNotResettable).

(** [GaugeTrait.current] getter *)
Definition GaugeTrait_current (now : Z) : method record pyval :=
  b <- GaugeTrait_base ;;
  m <- GaugeTrait_mod ;;
  full <- lift (py_add b m) ;;
  stored <- item_or "current" full ;;
  bounded <- GaugeTrait__enforce_boundaries stored ;;
  GaugeTrait__update_current now bounded.

(** [GaugeTrait.current] setter *)
Definition GaugeTrait_set_current (now : Z) (value : pyval) : method record unit :=
  if is_number value then
    bounded <- GaugeTrait__enforce_boundaries value ;;
    checked <- _check_and_start_timer now IsGauge bounded ;;
    set_item "current" checked
  else ret tt.

(** [GaugeTrait.current] deleter: "Resets current back to 'full'" *)
Definition GaugeTrait_del_current : method record unit :=
  b <- GaugeTrait_base ;;
  m <- GaugeTrait_mod ;;
  full <- lift (py_add b m) ;;
  set_item "current" full.

(** [GaugeTrait.value] *)
Definition GaugeTrait_value (now : Z) : method record pyval :=
  GaugeTrait_current now.

(** *** Shared by both *)

Definition self_value (now : Z) (self : counter_kind) : method record pyval :=
  match self with
  | IsCounter => CounterTrait_value now
  | IsGauge => GaugeTrait_value now
  end.

(** [CounterTrait.ratetarget] getter and setter ([GaugeTrait] inherits both). *)
Definition ratetarget : method record pyval := item "ratetarget".

Definition set_ratetarget (now : Z) (self : counter_kind) (value : pyval)
  : method record unit :=
  bounded <- _enforce_boundaries self value ;;
  set_item "ratetarget" bounded ;;;
  v <- self_value now self ;;
  _check_and_start_timer now self v ;;;
  ret tt.

(** ** StaticTrait *)

(** [StaticTrait.mod] getter and setter. *)
Definition StaticTrait_mod : method record pyval := item "mod".

Definition StaticTrait_set_mod (amount : pyval) : method record unit :=
  if is_number amount then set_item "mod" amount else ret tt.

(** [StaticTrait.value]: [self.base + self.mod], where [base] is no property
    of the class and is read through [Trait.__getattr__]. *)
Definition StaticTrait_value : method record pyval :=
  b <- getattr_data "base" ;;
  m <- StaticTrait_mod ;;
  lift (py_add b m).

(** ** Attribute protocol of [Trait] *)

(** [Trait.value] setter of the base class. *)
Definition Trait_set_value (value : pyval) : method record unit :=
  set_item "value" value.

(** A [property] object as [__setattr__] and [object.__delattr__] see it:
    its setter and its deleter, when it has them. *)
Record property : Type := {
  fset : option (pyval -> method record unit);
  fdel : option (method record unit)
}.

Definition read_only : property := {| fset := None; fdel := None |}.
Definition settable (f : pyval -> method record unit) : property :=
  {| fset := Some f; fdel := None |}.

(** The properties each class defines or inherits. *)
Definition properties (now : Z) (cls : builtin) : list (string * property) :=
  match cls with
  | TraitCls =>
    [("name", read_only); ("key", read_only); ("value", settable Trait_set_value)]
  | StaticCls =>
    [("name", read_only); ("key", read_only);
     ("mod", settable StaticTrait_set_mod); ("value", read_only)]
  | CounterCls =>
    [("name", read_only); ("key", read_only);
     ("base", settable CounterTrait_set_base);
     ("mod", settable CounterTrait_set_mod);
     ("min", settable CounterTrait_set_min);
     ("max", settable CounterTrait_set_max);
     ("current", {| fset := Some (CounterTrait_set_current now);
                    fdel := Some CounterTrait_del_current |});
     ("value", read_only);
     ("ratetarget", settable (set_ratetarget now IsCounter))]
  | GaugeCls =>
    [("name", read_only); ("key", read_only);
     ("base", settable GaugeTrait_set_base);
     ("mod", settable GaugeTrait_set_mod);
     ("min", settable GaugeTrait_set_min);
     ("max", {| fset := Some GaugeTrait_set_max; fdel := Some GaugeTrait_del_max |});
     ("current", {| fset := Some (GaugeTrait_set_current now);
                    fdel := Some GaugeTrait_del_current |});
     ("value", read_only);
     ("ratetarget", settable (set_ratetarget now IsGauge))]
  end.

Fixpoint find_property (props : list (string * property)) (key : string)
  : option property :=
  match props with
  | [] => None
  | (k, p) :: rest => if String.eqb k key then Some p else find_property rest key
  end.

(** [Trait.__setattr__(key, value)]. For [key = "_data"] the source rebinds
    the record of the wrapper, which then no longer is the stored one; that
    branch is outside the model (see [wrapper_names]), and no method of the
    module passes that name after [__init__]. *)
Definition Trait___setattr__ (now : Z) (cls : builtin) (key : string) (value : pyval)
  : method record unit :=
  match find_property (properties now cls) key with
  | Some propobj =>
    match fset propobj with
    | Some setter => setter value
    | None => ret tt
    end
  | None =>
    if allow_extra_properties (class_of cls) then set_item key value
    else raise (AttributeError key)
  end.

(** [object.__delattr__(self, key)]: a property is deleted through its
    deleter; anything else is no attribute of the instance. This holds for
    every name but those of [wrapper_names], which are outside the model. *)
Definition _DA (now : Z) (cls : builtin) (key : string) : method record unit :=
  match find_property (properties now cls) key with
  | Some propobj =>
    match fdel propobj with
    | Some deleter => deleter
    | None => raise (AttributeError key)
    end
  | None => raise (AttributeError key)
  end.

(** [Trait.__delattr__(key)] *)
Definition Trait___delattr__ (now : Z) (cls : builtin) (key : string)
  : method record unit :=
  match default_of (default_keys (class_of cls)) key with
  | Some dflt =>
    if is_mandatory dflt then raise (TraitException (MandatoryKeyNotDeletable key))
    else set_item key dflt
  | None =>
    present <- gets (has_key key) ;;
    if present then try_attribute_error (_DA now cls key) (del_item key)
    else try_attribute_error (_DA now cls key) (ret tt)
  end.

(** [CounterTrait.reset] and [GaugeTrait.reset]: [del self.current]. *)
Definition reset (now : Z) (self : counter_kind) : method record unit :=
  Trait___delattr__ now (match self with IsCounter => CounterCls | IsGauge => GaugeCls end)
    "current".

(** ** TraitHandler *)

(** [str.title()] on ASCII text: the first letter of every run of letters is
    upper-cased, the others lower-cased. *)
Definition is_lower (c : ascii) : bool :=
  let n := nat_of_ascii c in ((97 <=? n) && (n <=? 122))%nat.
Definition is_upper (c : ascii) : bool :=
  let n := nat_of_ascii c in ((65 <=? n) && (n <=? 90))%nat.
Definition to_upper (c : ascii) : ascii :=
  if is_lower c then ascii_of_nat (nat_of_ascii c - 32) else c.
Definition to_lower (c : ascii) : ascii :=
  if is_upper c then ascii_of_nat (nat_of_ascii c + 32) else c.

Fixpoint title_from (previous_is_cased : bool) (s : string) : string :=
  match s with
  | EmptyString => EmptyString
  | String c rest =>
    if is_lower c || is_upper c then
      String (if previous_is_cased then to_lower c else to_upper c) (title_from true rest)
    else String c (title_from false rest)
  end.

Definition title (s : string) : string := title_from false s.

(** The handler: [trait_data] maps a trait key to its record, [_cache] maps
    a trait key to the class of the wrapper cached for it. A wrapper holds
    the stored record itself, so a wrapper is addressed by its key and every
    method run on it acts on [trait_data[key]] (see [on_trait]). *)
Record handler : Type := {
  trait_data : gmap string record;
  _cache : gmap string trait_class
}.

(** [_TRAIT_CLASSES]: the registry, from a trait type to its class. The
    settings may add classes, so the handler methods take it as argument. *)
Abbreviation registry := (gmap string trait_class).

Definition _TRAIT_CLASSES : registry :=
  list_to_map (map (fun b => (trait_type (class_of b), class_of b))
                 [TraitCls; StaticCls; CounterCls; GaugeCls]).

(** [TraitHandler.remove] *)
Definition remove (trait_key : string) : method handler unit :=
  fun h =>
    match trait_data h !! trait_key with
    | None => (inl (TraitException (TraitNotFound trait_key)), h)
    | Some _ =>
      (inr tt, {| trait_data := delete trait_key (trait_data h);
                  _cache := delete trait_key (_cache h) |})
    end.

(** [self.trait_data[trait_key] = trait_properties] *)
Definition store (trait_key : string) (trait_properties : record) : method handler unit :=
  modify (fun h => {| trait_data := <[trait_key := trait_properties]> (trait_data h);
                      _cache := _cache h |}).

(** [TraitHandler.add]; [name] is [VNone] when the caller omits it, and
    [trait_properties] is the dict of the remaining keyword arguments. *)
Definition add (now : Z) (classes : registry) (trait_key : string) (name : pyval)
    (trait_type : string) (force : bool) (trait_properties : record)
  : method handler unit :=
  exists_already <- gets (fun h => bool_decide (is_Some (trait_data h !! trait_key))) ;;
  (if exists_already then
     if force then remove trait_key
     else raise (TraitException (TraitAlreadyExists trait_key))
   else ret tt) ;;;
  match classes !! trait_type with
  | None => raise (TraitException (TraitTypeInvalid trait_type))
  | Some trait_class =>
    let trait_properties :=
      <["name" := if negb (truthy name) then VStr (title trait_key) else name]>
        trait_properties in
    let trait_properties := <["trait_type" := VStr trait_type]> trait_properties in
    match validate_input now trait_class trait_properties with
    | (inl e, _) => raise e
    | (inr _, trait_properties) => store trait_key trait_properties
    end
  end.

(** [TraitHandler._get_trait_class(trait_type)] *)
Definition _get_trait_class (classes : registry) (trait_type : pyval)
  : outcome trait_class :=
  match trait_type with
  | VStr t =>
    match classes !! t with
    | Some cls => inr cls
    | None => inl (TraitException (TraitClassNotFound t))
    end
  | VDict _ => inl TypeError
  | _ => inl (TraitException (TraitClassNotFound EmptyString))
  end.

(** [TraitHandler.get]: the cached wrapper, or a new wrapper around the
    stored record. Creating the wrapper runs the class's [validate_input] on
    the stored record itself. Returns the wrapper's class, [None] when the
    key is unknown. *)
Definition get (now : Z) (classes : registry) (trait_key : string)
  : method handler (option trait_class) :=
  fun h =>
    match _cache h !! trait_key with
    | Some trait => (inr (Some trait), h)
    | None =>
      match trait_data h !! trait_key with
      | None => (inr None, h)
      | Some data =>
        match data !! "trait_type" with
        | None => (inl (KeyError "trait_type"), h)
        | Some trait_type =>
          match _get_trait_class classes trait_type with
          | inl e => (inl e, h)
          | inr trait_cls =>
            match validate_input now trait_cls data with
            | (inl e, data') =>
              (inl e, {| trait_data := <[trait_key := data']> (trait_data h);
                         _cache := _cache h |})
            | (inr _, data') =>
              (inr (Some trait_cls),
               {| trait_data := <[trait_key := data']> (trait_data h);
                  _cache := <[trait_key := trait_cls]> (_cache h) |})
            end
          end
        end
      end
    end.

(** Running a method of the wrapper of [trait_key]: it reads and writes the
    stored record. *)
Definition on_trait {A} (trait_key : string) (m : method record A) : method handler A :=
  fun h =>
    match trait_data h !! trait_key with
    | None => (inl (KeyError trait_key), h)
    | Some data =>
      let '(r, data') := m data in
      (r, {| trait_data := <[trait_key := data']> (trait_data h); _cache := _cache h |})
    end.

(** ** Numeric view of a record

    The pure functions below say what the boundary and timer methods
    compute when the fields they read hold numbers (or [None] for an unset
    bound); the lemmas of the next part relate the methods to them. *)

(** An optional number as the record stores it. *)
Definition bound (o : option Z) : pyval :=
  match o with Some n => VInt n | None => VNone end.

(** [lo is not None and v <= lo] *)
Definition below (lo : option Z) (v : Z) : bool :=
  match lo with Some l => v <=? l | None => false end.

(** [hi is not None and v >= hi] *)
Definition above (hi : option Z) (v : Z) : bool :=
  match hi with Some h => h <=? v | None => false end.

Definition within (lo hi : option Z) (v : Z) : bool :=
  negb (below lo v || above hi v).

(** What [CounterTrait._enforce_boundaries] returns on numbers. *)
Definition clamp (lo hi : option Z) (v : Z) : Z :=
  if below lo v then default v lo
  else if above hi v then default v hi
  else v.

(** What [GaugeTrait._enforce_boundaries] returns on numbers. *)
Definition gauge_clamp (lo top v : Z) : Z :=
  if v <=? lo then lo else Z.min top v.

Definition passed (rt : option Z) (r v : Z) : bool :=
  match rt with
  | Some t => (r <? 0) && (v <=? t) || (0 <? r) && (t <=? v)
  | None => false
  end.

(** [o is not None] *)
Definition is_set (o : option Z) : bool :=
  match o with Some _ => true | None => false end.

(** The timer decision of [_check_and_start_timer]. *)
Definition starts (r : Z) (lu : option Z) (lo hi rt : option Z) (v : Z) : bool :=
  negb (r =? 0) && negb (is_set lu) && within lo hi v && negb (passed rt r v).

(** The outcome of [CounterTrait._update_current] on numbers: the value
    returned and stored, and what becomes of [last_update]. *)
Definition counter_step (now r m : Z) (lu rt lo hi : option Z) (c : Z)
  : Z * option Z :=
  match lu with
  | Some t0 =>
    if r =? 0 then (c, lu)
    else
      let candidate := c + r * (now - t0) in
      let probe := candidate + m in
      if passed rt r probe then (default 0 rt - m, None)
      else if negb (within lo hi probe) then (clamp lo hi probe - m, None)
      else (candidate, Some now)
  | None => (c, lu)
  end.

(** The record a read of a Counter's [current] leaves at clock reading
    [now], when the stored [current] is [c] (or [base] when none is
    stored). *)
Definition counter_after_read (d : record) (now r m : Z) (lu rt lo hi : option Z)
    (c : Z) : record :=
  let s := counter_step now r m lu rt lo hi c in
  if negb (r =? 0) && is_set lu
  then <["current" := VInt (fst s)]> (<["last_update" := bound (snd s)]> d)
  else d.

(** What the guarded adjustments of the Counter's [base] and [mod] setters
    compute for a written number [v], the other summand being [o]. *)
Definition landed (lo hi : option Z) (o v : Z) : Z :=
  let v1 := match lo with Some l => if v + o <? l then l - o else v | None => v end in
  match hi with Some h => if h <? v1 + o then h - o else v1 | None => v1 end.

(** The bounds invariant of a Counter: whenever both [min] and [max] are
    set, [min <= max] and [min <= base + mod <= max]. *)
Definition bounds_invariant (d : record) : Prop :=
  forall b m lo hi,
    d !! "base" = Some (VInt b) -> d !! "mod" = Some (VInt m) ->
    d !! "min" = Some (VInt lo) -> d !! "max" = Some (VInt hi) ->
    lo <= hi /\ lo <= b + m <= hi.

(** The same, bound by bound: every bound that is set bounds
    [base + mod]. This is what the setters maintain, also while only one of
    the two bounds is set. *)
Definition each_bound_holds (d : record) : Prop :=
  forall b m,
    d !! "base" = Some (VInt b) -> d !! "mod" = Some (VInt m) ->
    (forall lo, d !! "min" = Some (VInt lo) -> lo <= b + m) /\
    (forall hi, d !! "max" = Some (VInt hi) -> b + m <= hi).

(** The four fields the bounds invariant speaks about hold numbers
    ([min] and [max] possibly [None]). *)
Definition numeric_bounds (d : record) : Prop :=
  exists b m lo hi,
    d !! "base" = Some (VInt b) /\ d !! "mod" = Some (VInt m) /\
    d !! "min" = Some (bound lo) /\ d !! "max" = Some (bound hi).

(** The required keys of [cls] that [trait_data] does not supply. *)
Definition missing_mandatory (cls : trait_class) (trait_data : record) : list string :=
  map fst (List.filter (fun kv => is_mandatory (snd kv))
             (List.filter (fun kv => negb (has_key (fst kv) trait_data))
                (default_keys cls))).

(** ** Scenarios *)

Definition empty_handler : handler := {| trait_data := ∅; _cache := ∅ |}.

(** The Counter of the module documentation, [base=10, mod=1, min=0,
    max=100], with [current = 41], [rate = 1] and [ratetarget = 71], its
    timer running since [t0]. *)
Definition hunting (t0 : Z) : record :=
  list_to_map
    [("name", VStr "Hunting Skill"); ("trait_type", VStr "counter");
     ("base", VInt 10); ("mod", VInt 1); ("min", VInt 0); ("max", VInt 100);
     ("descs", VNone); ("rate", VInt 1); ("ratetarget", VInt 71);
     ("current", VInt 41); ("last_update", VInt t0)].

(** The record that [add("skill", trait_type=..., **fields)] stores in an
    empty handler at clock reading [now] (empty when the call fails). *)
Definition added (now : Z) (trait_type : string) (fields : record) : record :=
  default ∅
    (trait_data (snd (add now _TRAIT_CLASSES "skill" VNone trait_type true fields
                        empty_handler)) !! "skill").

(** Keyword arguments with [min] above [max] and [base] below [min]. *)
Definition lopsided_fields : record :=
  <["base" := VInt 10]> (<["min" := VInt 20]> (<["max" := VInt 5]> ∅)).

(** Keyword arguments of a Counter in [5, 100] at 10. *)
Definition ranged_fields : record :=
  <["base" := VInt 10]> (<["min" := VInt 5]> (<["max" := VInt 100]> ∅)).

(** Keyword arguments of a Counter in [0, 100] with [base=50] and [mod=10]. *)
Definition modded_fields : record :=
  <["base" := VInt 50]> (<["mod" := VInt 10]>
    (<["min" := VInt 0]> (<["max" := VInt 100]> ∅))).

(** Keyword arguments [base=b, mod=m] of a Gauge. *)
Definition gauge_fields (b m : Z) : record :=
  <["base" := VInt b]> (<["mod" := VInt m]> ∅).

(** [add("hp", trait_type="gauge", base=100)], then [hp.value],
    [hp.current -= 30], [hp.value], [hp.reset()], [hp.value]: the three
    values read, and the handler at the end. *)
Definition gauge_refill (now : Z) : outcome (pyval * pyval * pyval) * handler :=
  (add now _TRAIT_CLASSES "hp" VNone "gauge" true (<["base" := VInt 100]> ∅) ;;;
   get now _TRAIT_CLASSES "hp" ;;;
   v0 <- on_trait "hp" (GaugeTrait_value now) ;;
   current <- on_trait "hp" (GaugeTrait_current now) ;;
   lowered <- lift (py_sub current (VInt 30)) ;;
   on_trait "hp" (Trait___setattr__ now GaugeCls "current" lowered) ;;;
   v1 <- on_trait "hp" (GaugeTrait_value now) ;;
   on_trait "hp" (reset now IsGauge) ;;;
   v2 <- on_trait "hp" (GaugeTrait_value now) ;;
   ret (v0, v1, v2)) empty_handler.

(** The record of a Gauge added with [base=b, mod=m] and no other keyword
    argument, as validation completes it. *)
Definition plain_gauge (b m : Z) : record :=
  list_to_map
    [("name", VStr "Hp"); ("trait_type", VStr "gauge");
     ("base", VInt b); ("mod", VInt m); ("min", VInt 0); ("descs", VNone);
     ("rate", VInt 0); ("ratetarget", VNone); ("last_update", VNone)].

(** The dict [add] hands to [validate_input]: the keyword arguments with
    ["name"] and ["trait_type"] filled in. *)
Definition merged_properties (trait_key : string) (name : pyval) (trait_type : string)
    (trait_properties : record) : record :=
  <["trait_type" := VStr trait_type]>
    (<["name" := if negb (truthy name) then VStr (title trait_key) else name]>
       trait_properties).

(** What a failed [add] leaves of the handler: the old record of the key,
    if there was one, has been removed together with its cached wrapper. *)
Definition without (trait_key : string) (h : handler) : handler :=
  match trait_data h !! trait_key with
  | Some _ => {| trait_data := delete trait_key (trait_data h);
                 _cache := delete trait_key (_cache h) |}
  | None => h
  end.

(** A trait class supplied through the settings, with a required key. *)
Definition RageTrait_class : trait_class :=
  {| trait_type := "rage";
     default_keys := [("rage", VMandatory); ("calm", VInt 0)];
     allow_extra_properties := true;
     counter_validation := false |}.

Definition classes_with_rage : registry := <["rage" := RageTrait_class]> _TRAIT_CLASSES.

(** A handler holding the Gauge ["hp"] with [base=100]. *)
Definition handler_with_hp : handler :=
  {| trait_data := {[ "hp" := plain_gauge 100 0 ]}; _cache := ∅ |}.

(** Keyword arguments with a [descs] dict keyed by a string. *)
Definition bad_descs_fields : record :=
  <["descs" := VDict [(VStr "low", VInt 1)]]> ∅.

(** Keyword arguments of a Gauge whose rate target lies above its ceiling. *)
Definition overdriven_fields : record :=
  <["base" := VInt 100]> (<["rate" := VInt 1]> (<["ratetarget" := VInt 150]> ∅)).

(** Keyword arguments of the Counter of the module documentation. *)
Definition documented_fields : record :=
  <["base" := VInt 10]> (<["mod" := VInt 1]>
    (<["min" := VInt 0]> (<["max" := VInt 100]> ∅))).

(** The session of the module documentation on that Counter, up to the
    write of [rate]: [ratetarget = 71], [current = 40] (so that [value] is
    41), [rate = 1], all at clock reading [now]. *)
Definition documented_session (now : Z) : outcome unit * record :=
  (Trait___setattr__ now CounterCls "ratetarget" (VInt 71) ;;;
   Trait___setattr__ now CounterCls "current" (VInt 40) ;;;
   Trait___setattr__ now CounterCls "rate" (VInt 1))
    (added now "counter" documented_fields).

(** Keyword arguments [base=10, mod=2] of a Static trait. *)
Definition strength_fields : record :=
  <["base" := VInt 10]> (<["mod" := VInt 2]> ∅).


(** ** Further methods *)

(** [Trait.value] getter of the base class. *)
Definition Trait_value : method record pyval := item "value".

(** The names [Trait.__getattr__] answers from the class, whatever the
    record holds. *)
Definition class_attributes : list string :=
  ["default_keys"; "data_default"; "trait_type"; "allow_extra_properties"].

(** What an attribute read through [Trait.__getattr__] yields: a value of
    the record or one of the class attributes. *)
Inductive attribute : Type :=
| Stored (v : pyval)
| DefaultKeys (keys : list (string * pyval))
| TraitType (trait_type : string)
| AllowExtraProperties (allowed : bool).

(** [Trait.__getattr__(key)]. No class defines [data_default], so
    [object.__getattribute__] raises [AttributeError] for it. *)
Definition Trait___getattr__ (cls : trait_class) (key : string)
  : method record attribute :=
  if str_in key class_attributes then
    if String.eqb key "default_keys" then ret (DefaultKeys (default_keys cls))
    else if String.eqb key "trait_type" then ret (TraitType (trait_type cls))
    else if String.eqb key "allow_extra_properties"
         then ret (AllowExtraProperties (allow_extra_properties cls))
         else raise (AttributeError key)
  else v <- getattr_data key ;; ret (Stored v).

(** The names [object.__setattr__] and [object.__delattr__] serve on the
    wrapper itself and not on its record: the instance attribute [_data],
    and [__dict__] and [__class__], which [object] defines as descriptors
    ([del t.__dict__] succeeds and takes [_data] along, [del t.__class__]
    raises [TypeError]). [Trait___setattr__], [_DA] and [Trait___delattr__]
    model the source for every other name. *)
Definition wrapper_names : list string := ["_data"; "__dict__"; "__class__"].

(** The loop of [CounterTrait.desc]: [highest] is the text of the entry
    visited last, returned when no bound reaches [value]. *)
Fixpoint desc_loop (value highest : pyval) (items : list (pyval * pyval))
  : outcome pyval :=
  match items with
  | [] => inr highest
  | (bound, txt) :: rest =>
    match py_le value bound with
    | inl e => inl e
    | inr true => inr txt
    | inr false => desc_loop value txt rest
    end
  end.

(** [CounterTrait.desc], inherited by [GaugeTrait]. With [descs] other
    than [None] the method reads [self.value] first; a [descs] that is no
    dict has no [items], which shows only after that read. *)
Definition desc (now : Z) (self : counter_kind) : method record pyval :=
  descs <- item "descs" ;;
  match descs with
  | VNone => ret (VStr EmptyString)
  | VDict items =>
    value <- self_value now self ;;
    lift (desc_loop value (VStr EmptyString) items)
  | _ =>
    self_value now self ;;;
    raise (AttributeError "items")
  end.

(** [for key in keys: body(key)] *)
Fixpoint for_each {S} (keys : list string) (body : string -> method S unit)
  : method S unit :=
  match keys with
  | [] => ret tt
  | key :: rest => body key ;;; for_each rest body
  end.

(** [TraitHandler.all]: the trait keys. The source lists them in insertion
    order; the map of the model keeps no insertion order, so the list here
    has the keys in the order of the map. *)
Definition all (h : handler) : list string := map fst (map_to_list (trait_data h)).

(** [TraitHandler.__len__] *)
Definition __len__ (h : handler) : nat := size (trait_data h).

(** [TraitHandler.clear] *)
Definition clear : method handler unit :=
  fun h => for_each (all h) remove h.

(** The handler's cache only holds wrappers of stored traits. *)
Definition cache_consistent (h : handler) : Prop :=
  forall key, is_Some (_cache h !! key) -> is_Some (trait_data h !! key).

(** ** Numeric view of a Gauge read *)

(** The outcome of [GaugeTrait._update_current] on numbers, for the current
    [c] the getter passes in: the value returned and stored, and what becomes
    of [last_update]. [lo] is the floor the [min] getter returns. *)
Definition gauge_step (now r b m lo : Z) (lu rt : option Z) (c : Z) : Z * option Z :=
  match lu with
  | Some t0 =>
    if r =? 0 then (c, lu)
    else
      let candidate := c + r * (now - t0) in
      if passed rt r candidate then (default 0 rt, None)
      else if negb (within (Some lo) (Some (b + m)) candidate)
           then (gauge_clamp lo (m + b) candidate, None)
           else (candidate, Some now)
  | None => (c, lu)
  end.

(** The record a read of a Gauge's [current] leaves. *)
Definition gauge_after_read (d : record) (now r b m lo : Z) (lu rt : option Z) (c : Z)
  : record :=
  let s := gauge_step now r b m lo lu rt c in
  if negb (r =? 0) && is_set lu
  then <["current" := VInt (fst s)]> (<["last_update" := bound (snd s)]> d)
  else d.

(** A [descs] dict with numeric bounds and texts. *)
Definition descs_dict (l : list (Z * string)) : pyval :=
  VDict (map (fun e => (VInt (fst e), VStr (snd e))) l).

(** ** Enumerations of the tutorial game (evadventure/enums.py) *)

Inductive Ability : Type :=
| STR | DEX | CON | INT | WIS | CHA
| STR_DEFENSE | DEX_DEFENSE | CON_DEFENSE | INT_DEFENSE | WIS_DEFENSE | CHA_DEFENSE
| ARMOR | HP | EXPLORATION_SPEED | COMBAT_SPEED | LEVEL | XP.

(** [Ability.X.value] *)
Definition Ability_value (a : Ability) : string :=
  match a with
  | STR => "strength" | DEX => "dexterity" | CON => "constitution"
  | INT => "intelligence" | WIS => "wisdom" | CHA => "charisma"
  | STR_DEFENSE => "strength_defense" | DEX_DEFENSE => "dexterity_defense"
  | CON_DEFENSE => "constitution_defense" | INT_DEFENSE => "intelligence_defense"
  | WIS_DEFENSE => "wisdom_defense" | CHA_DEFENSE => "charisma_defense"
  | ARMOR => "armor" | HP => "hp" | EXPLORATION_SPEED => "exploration_speed"
  | COMBAT_SPEED => "combat_speed" | LEVEL => "level" | XP => "xp"
  end.

(** The members in definition order. *)
Definition Ability_members : list Ability :=
  [STR; DEX; CON; INT; WIS; CHA;
   STR_DEFENSE; DEX_DEFENSE; CON_DEFENSE; INT_DEFENSE; WIS_DEFENSE; CHA_DEFENSE;
   ARMOR; HP; EXPLORATION_SPEED; COMBAT_SPEED; LEVEL; XP].

(** [Ability(value)]: the first member defined with that value. *)
Definition Ability_of_value (value : string) : option Ability :=
  List.find (fun a => String.eqb (Ability_value a) value) Ability_members.

(** The [descs] of the skill example in the module documentation. *)
Definition skill_descs : list (Z * string) :=
  [(0, "unskilled"); (10, "neophyte"); (50, "trained"); (70, "expert"); (90, "master")].

(** The dict [trait_data.update(unset_defaults)] leaves: [trait_data] with
    the default of every key of the class it does not supply. *)
Definition with_defaults (cls : trait_class) (trait_data : record) : record :=
  foldr (fun kv acc => <[fst kv := snd kv]> acc) trait_data
    (List.filter (fun kv => negb (has_key (fst kv) trait_data)) (default_keys cls)).

(** The check of [CounterTrait.validate_input] on [descs]: anything but a
    dict passes, a dict passes when every entry binds a number to a string. *)
Definition descs_accepted (descs : pyval) : bool :=
  match descs with
  | VDict items => negb (existsb (fun kv => negb (desc_entry_ok kv)) items)
  | _ => true
  end.

(** A stored record is complete for its class: it has ["name"], its
    ["trait_type"] and every key of the class, and for a class with the
    Counter validation its [descs] pass the check. *)
Definition complete (cls : trait_class) (trait_type : string) (d : record) : Prop :=
  is_Some (d !! "name") /\
  d !! "trait_type" = Some (VStr trait_type) /\
  (forall kv, In kv (default_keys cls) -> is_Some (d !! fst kv)) /\
  (counter_validation cls = true ->
   exists descs rate,
     d !! "descs" = Some descs /\ descs_accepted descs = true /\
     d !! "rate" = Some rate).

(** The record [get] leaves when it builds a wrapper around a complete
    record at clock reading [now]. *)
Definition revalidated (now : Z) (cls : trait_class) (d : record) : record :=
  if counter_validation cls
  then <["last_update" :=
           if ne_zero (default VNone (d !! "rate")) then VInt now else VNone]> d
  else d.

(** * Properties *)

(** ** Stepping through a method *)

Lemma bind_eq {S A B} (m : method S A) (k : A -> method S B) s a s' :
  m s = (inr a, s') -> bind m k s = k a s'.
Proof. intros H. unfold bind. now rewrite H. Qed.

Lemma bind_raise {S A B} (m : method S A) (k : A -> method S B) s e s' :
  m s = (inl e, s') -> bind m k s = (inl e, s').
Proof. intros H. unfold bind. now rewrite H. Qed.

Lemma bind_assoc {S A B C} (m : method S A) (f : A -> method S B)
    (g : B -> method S C) s :
  bind (bind m f) g s = bind m (fun x => bind (f x) g) s.
Proof. unfold bind. destruct (m s) as [[e|a] s']; reflexivity. Qed.

Lemma item_eq (d : record) key v : d !! key = Some v -> item key d = (inr v, d).
Proof. intros H. unfold item. now rewrite H. Qed.

Lemma getattr_data_eq (d : record) key v :
  d !! key = Some v -> getattr_data key d = (inr v, d).
Proof. intros H. unfold getattr_data. now rewrite H. Qed.

Ltac lookup_tac :=
  first [ eassumption | simplify_map_eq; first [ reflexivity | eassumption ] ].

Ltac mstep :=
  first
    [ rewrite bind_assoc
    | erewrite (bind_eq (item _)) by (apply item_eq; lookup_tac)
    | erewrite (bind_eq (getattr_data _)) by (apply getattr_data_eq; lookup_tac)
    | erewrite (bind_eq (ret _)) by reflexivity
    | erewrite (bind_eq (lift _)) by reflexivity
    | erewrite (bind_eq (set_item _ _)) by reflexivity
    | erewrite (bind_eq (item_or _ _)) by reflexivity
    | erewrite (bind_eq (gets _)) by reflexivity
    | erewrite (bind_eq (and_then false _)) by reflexivity
    | erewrite (bind_eq (or_else true _)) by reflexivity ].

Ltac msimpl :=
  cbn [and_then or_else negb andb orb is_none is_number ne_zero bound is_set
       py_add py_sub py_mul py_lt py_le py_gt py_ge py_min py_max].

Ltac mrun := repeat (msimpl; mstep); msimpl.

(** ** The boundary and timer helpers on numeric records *)

Section NumericRecord.
Variable d : record.
Variables (m r : Z) (lo hi rt lu : option Z).
Hypothesis Hmod : d !! "mod" = Some (VInt m).
Hypothesis Hrate : d !! "rate" = Some (VInt r).
Hypothesis Hmin : d !! "min" = Some (bound lo).
Hypothesis Hmax : d !! "max" = Some (bound hi).
Hypothesis Hrt : d !! "ratetarget" = Some (bound rt).
Hypothesis Hlu : d !! "last_update" = Some (bound lu).

Lemma passed_ratetarget_eq (v : Z) :
  _passed_ratetarget (VInt v) d = (inr (passed rt r v), d).
Proof using Hrate Hrt.
  unfold _passed_ratetarget, self_rate. mstep.
  destruct rt as [t|]; [|reflexivity]. mrun. unfold passed.
  destruct (r <? 0), (v <=? t); mrun; try reflexivity;
    destruct (0 <? r); reflexivity.
Qed.

Lemma within_boundaries_counter_eq (v : Z) :
  _within_boundaries IsCounter (VInt v) d = (inr (within lo hi v), d).
Proof using Hmin Hmax.
  unfold _within_boundaries, self_min, self_max, CounterTrait_min, CounterTrait_max, within.
  mstep. destruct lo as [l|]; mrun.
  - unfold below. destruct (v <=? l); mrun; [reflexivity|].
    destruct hi as [h|]; mrun; reflexivity.
  - destruct hi as [h|]; mrun; reflexivity.
Qed.

Lemma enforce_boundaries_counter_eq (v : Z) :
  CounterTrait__enforce_boundaries (VInt v) d = (inr (VInt (clamp lo hi v)), d).
Proof using Hmin Hmax.
  unfold CounterTrait__enforce_boundaries, CounterTrait_min, CounterTrait_max, clamp.
  mstep. destruct lo as [l|]; mrun.
  - unfold below. destruct (v <=? l); mrun; [reflexivity|].
    destruct hi as [h|]; mrun; [|reflexivity].
    unfold above. destruct (h <=? v); reflexivity.
  - destruct hi as [h|]; mrun; [|reflexivity].
    unfold above, below. destruct (h <=? v); reflexivity.
Qed.

Lemma timer_active_eq :
  timer_active (VInt r) d = (inr (negb (r =? 0) && is_set lu), d).
Proof using Hlu.
  unfold timer_active. msimpl. destruct (r =? 0); [reflexivity|]. mrun.
  destruct lu; reflexivity.
Qed.

Lemma stop_timer_eq :
  _stop_timer d =
  (inr tt, if negb (r =? 0) && is_set lu
           then <["last_update" := VNone]> d else d).
Proof using Hrate Hlu.
  unfold _stop_timer, self_rate. mrun. destruct (r =? 0); mrun; [reflexivity|].
  destruct lu; reflexivity.
Qed.

Lemma check_and_start_timer_counter_eq (now v : Z) :
  _check_and_start_timer now IsCounter (VInt v) d =
  (inr (VInt v),
   if starts r lu lo hi rt v then <["last_update" := VInt now]> d else d).
Proof using Hrate Hlu Hmin Hmax Hrt.
  unfold _check_and_start_timer, self_rate, starts. mrun.
  destruct (r =? 0); mrun; [reflexivity|].
  destruct lu as [t|]; mrun; [reflexivity|].
  erewrite (bind_eq (_within_boundaries _ _)) by apply within_boundaries_counter_eq.
  destruct (within lo hi v); mrun; [|reflexivity].
  erewrite (bind_eq (_passed_ratetarget _)) by apply passed_ratetarget_eq.
  mrun. destruct (passed rt r v); reflexivity.
Qed.

Lemma update_current_counter_eq (now c : Z) :
  CounterTrait__update_current now (VInt c) d =
  (inr (VInt (fst (counter_step now r m lu rt lo hi c))),
   if negb (r =? 0) && is_set lu
   then <["current" := VInt (fst (counter_step now r m lu rt lo hi c))]>
          (<["last_update" := bound (snd (counter_step now r m lu rt lo hi c))]> d)
   else d).
Proof using Hmod Hrate Hlu Hmin Hmax Hrt.
  pose proof stop_timer_eq as Hstop.
  pose proof passed_ratetarget_eq as Hpassed.
  pose proof within_boundaries_counter_eq as Hwithin.
  pose proof enforce_boundaries_counter_eq as Henforce.
  unfold CounterTrait__update_current, self_rate, CounterTrait_mod. mstep.
  erewrite (bind_eq (timer_active _)) by apply timer_active_eq.
  unfold counter_step.
  destruct lu as [t0|]; [|destruct (r =? 0); reflexivity].
  destruct (r =? 0) eqn:Er; [reflexivity|]. mrun.
  erewrite (bind_eq (_passed_ratetarget _)) by apply Hpassed.
  destruct (passed rt r (c + r * (now - t0) + m)) eqn:Ep.
  - destruct rt as [t|]; [|discriminate]. mrun.
    erewrite (bind_eq _stop_timer) by apply Hstop.
    mrun. reflexivity.
  - mrun.
    erewrite (bind_eq (_within_boundaries _ _)) by apply Hwithin.
    destruct (within lo hi (c + r * (now - t0) + m)); mrun.
    + reflexivity.
    + erewrite (bind_eq (CounterTrait__enforce_boundaries _)) by apply Henforce.
      mrun. erewrite (bind_eq _stop_timer) by apply Hstop.
      mrun. reflexivity.
Qed.
End NumericRecord.

(** ** Reading a Counter *)

Section CounterRead.
Variable d : record.
Variables (b m r : Z) (lo hi rt lu cur : option Z).
Hypothesis Hbase : d !! "base" = Some (VInt b).
Hypothesis Hmod : d !! "mod" = Some (VInt m).
Hypothesis Hrate : d !! "rate" = Some (VInt r).
Hypothesis Hmin : d !! "min" = Some (bound lo).
Hypothesis Hmax : d !! "max" = Some (bound hi).
Hypothesis Hrt : d !! "ratetarget" = Some (bound rt).
Hypothesis Hlu : d !! "last_update" = Some (bound lu).
Hypothesis Hcur : d !! "current" = VInt <$> cur.

Lemma counter_current_eq (now : Z) :
  CounterTrait_current now d =
  (inr (VInt (fst (counter_step now r m lu rt lo hi (default b cur)))),
   counter_after_read d now r m lu rt lo hi (default b cur)).
Proof using All.
  unfold CounterTrait_current, CounterTrait_base, item_or. mstep.
  erewrite (bind_eq (gets _)) by reflexivity.
  rewrite Hcur.
  replace (default (VInt b) (VInt <$> cur)) with (VInt (default b cur))
    by (destruct cur; reflexivity).
  now rewrite (update_current_counter_eq d m r lo hi rt lu).
Qed.

Lemma counter_after_read_other (now c : Z) (key : string) :
  key <> "current" -> key <> "last_update" ->
  counter_after_read d now r m lu rt lo hi c !! key = d !! key.
Proof using Type.
  intros H1 H2. unfold counter_after_read.
  destruct (negb (r =? 0) && is_set lu); [|reflexivity].
  now rewrite !lookup_insert_ne by congruence.
Qed.

Lemma counter_value_eq (now : Z) :
  CounterTrait_value now d =
  (inr (VInt (clamp lo hi
                (fst (counter_step now r m lu rt lo hi (default b cur)) + m))),
   counter_after_read d now r m lu rt lo hi (default b cur)).
Proof using All.
  unfold CounterTrait_value.
  erewrite (bind_eq (CounterTrait_current _)) by apply counter_current_eq.
  unfold CounterTrait_mod.
  erewrite (bind_eq (item _))
    by (apply item_eq; rewrite counter_after_read_other by discriminate; exact Hmod).
  mrun.
  apply enforce_boundaries_counter_eq;
    rewrite counter_after_read_other by discriminate; assumption.
Qed.
End CounterRead.

Lemma clamp_between (l h v : Z) : l <= h -> l <= clamp (Some l) (Some h) v <= h.
Proof.
  intros H. unfold clamp, below, above. simpl.
  destruct (Z.leb_spec v l); [lia|]. destruct (Z.leb_spec h v); lia.
Qed.

(** C1. Reading [current] on a Counter whose timer runs (nonzero rate,
    [last_update] set) extrapolates [candidate = current + rate * elapsed]
    and [probe = candidate + mod]; when [ratetarget] is set and the probe
    has reached it in the direction of travel, the read stores and returns
    [ratetarget - mod] and unsets [last_update]. On the documented Counter
    ([base=10, mod=1, min=0, max=100]) with [current=41], [rate=1],
    [ratetarget=71] at [t0], [value] read at [t0 + 100] is 71, and the timer
    is off. *)
Theorem C1_ratetarget_stop :
  (forall (d : record) (now t0 b m r rt c : Z),
      d !! "base" = Some (VInt b) -> d !! "mod" = Some (VInt m) ->
      d !! "rate" = Some (VInt r) -> r <> 0 ->
      d !! "last_update" = Some (VInt t0) ->
      d !! "ratetarget" = Some (VInt rt) ->
      default (VInt b) (d !! "current") = VInt c ->
      (0 < r /\ rt <= c + r * (now - t0) + m) \/
      (r < 0 /\ c + r * (now - t0) + m <= rt) ->
      CounterTrait_current now d =
      (inr (VInt (rt - m)),
       <["current" := VInt (rt - m)]> (<["last_update" := VNone]> d)))
  /\ (forall t0 : Z,
         fst (CounterTrait_value (t0 + 100) (hunting t0)) = inr (VInt 71) /\
         snd (CounterTrait_value (t0 + 100) (hunting t0)) !! "last_update"
         = Some VNone).
Proof.
  split.
  - intros d now t0 b m r rt c Hb Hm Hr Hr0 Hlu Hrt Hc Hx.
    unfold CounterTrait_current, CounterTrait_base, item_or. mstep.
    erewrite (bind_eq (gets _)) by reflexivity. rewrite Hc.
    unfold CounterTrait__update_current, self_rate, CounterTrait_mod. mstep.
    erewrite (bind_eq (timer_active _))
      by exact (timer_active_eq d r (Some t0) Hlu).
    apply Z.eqb_neq in Hr0. rewrite Hr0. mrun.
    erewrite (bind_eq (_passed_ratetarget _))
      by exact (passed_ratetarget_eq d r (Some rt) Hr Hrt _).
    assert (passed (Some rt) r (c + r * (now - t0) + m) = true) as ->.
    { unfold passed.
      destruct Hx as [[H1 H2]|[H1 H2]].
      - apply orb_true_iff. right. apply andb_true_iff. split; lia.
      - apply orb_true_iff. left. apply andb_true_iff. split; lia. }
    mrun.
    erewrite (bind_eq _stop_timer) by exact (stop_timer_eq d r (Some t0) Hr Hlu).
    rewrite Hr0. mrun. reflexivity.
  - intros t0.
    rewrite (counter_value_eq (hunting t0) 10 1 1 (Some 0) (Some 100) (Some 71)
               (Some t0) (Some 41)) by reflexivity.
    unfold counter_after_read, counter_step.
    replace (t0 + 100 - t0) with 100 by lia.
    split; reflexivity.
Qed.

Lemma C1_ratetarget_stop_witness :
  CounterTrait_current 1100 (hunting 1000) =
  (inr (VInt 70), <["current" := VInt 70]> (<["last_update" := VNone]> (hunting 1000))).
Proof.
  apply (proj1 C1_ratetarget_stop (hunting 1000) 1100 1000 10 1 1 71 41);
    try reflexivity; lia.
Defined.

(** ** The bounds invariant under the Counter setters *)

Lemma landed_lower (lo hi : option Z) (o v l : Z) :
  lo = Some l -> (forall h, hi = Some h -> l <= h) -> l <= landed lo hi o v + o.
Proof.
  intros -> H. unfold landed. cbv zeta.
  destruct hi as [h|]; [specialize (H h eq_refl)|];
    destruct (Z.ltb_spec (v + o) l);
    repeat match goal with |- context [?x <? ?y] => destruct (Z.ltb_spec x y) end;
    lia.
Qed.

Lemma landed_upper (lo hi : option Z) (o v h : Z) :
  hi = Some h -> landed lo hi o v + o <= h.
Proof.
  intros ->. unfold landed. cbv zeta.
  match goal with |- context [?x <? ?y] => destruct (Z.ltb_spec x y) end; lia.
Qed.

Section CounterSetters.
Variable d : record.
Variables (b m : Z) (lo hi : option Z).
Hypothesis Hbase : d !! "base" = Some (VInt b).
Hypothesis Hmod : d !! "mod" = Some (VInt m).
Hypothesis Hmin : d !! "min" = Some (bound lo).
Hypothesis Hmax : d !! "max" = Some (bound hi).

Lemma set_base_number (v : Z) :
  CounterTrait_set_base (VInt v) d = (inr tt, <["base" := VInt (landed lo hi m v)]> d).
Proof using Hmod Hmin Hmax.
  unfold CounterTrait_set_base, CounterTrait_min, CounterTrait_max, CounterTrait_mod,
    landed.
  mrun. destruct lo as [l|]; mrun.
  - destruct (v + m <? l); mrun; destruct hi as [h|]; mrun;
      try reflexivity; unfold py_gt; msimpl;
      match goal with |- context [?x <? ?y] => destruct (x <? y) end;
      mrun; reflexivity.
  - destruct hi as [h|]; mrun; [|reflexivity].
    destruct (h <? v + m); mrun; reflexivity.
Qed.

Lemma set_mod_number (v : Z) :
  CounterTrait_set_mod (VInt v) d = (inr tt, <["mod" := VInt (landed lo hi b v)]> d).
Proof using Hbase Hmin Hmax.
  unfold CounterTrait_set_mod, CounterTrait_min, CounterTrait_max, CounterTrait_base,
    landed.
  mrun. destruct lo as [l|]; mrun.
  - destruct (v + b <? l); mrun; destruct hi as [h|]; mrun;
      try reflexivity; unfold py_gt; msimpl;
      match goal with |- context [?x <? ?y] => destruct (x <? y) end;
      mrun; reflexivity.
  - destruct hi as [h|]; mrun; [|reflexivity].
    destruct (h <? v + b); mrun; reflexivity.
Qed.

Lemma set_min_number (v : Z) :
  CounterTrait_set_min (VInt v) d =
  (inr tt, <["min" := VInt (Z.min (match hi with Some h => Z.min h v | None => v end)
                              (b + m))]> d).
Proof using Hbase Hmod Hmax.
  unfold CounterTrait_set_min, CounterTrait_max, CounterTrait_base, CounterTrait_mod.
  mrun. destruct hi as [h|]; mrun.
  - destruct (Z.ltb_spec v h); mrun.
    + rewrite (Z.min_r h v) by lia.
      destruct (Z.ltb_spec (b + m) v); mrun;
        [rewrite Z.min_r by lia | rewrite Z.min_l by lia]; reflexivity.
    + rewrite (Z.min_l h v) by lia.
      destruct (Z.ltb_spec (b + m) h); mrun;
        [rewrite Z.min_r by lia | rewrite Z.min_l by lia]; reflexivity.
  - destruct (Z.ltb_spec (b + m) v); mrun;
      [rewrite Z.min_r by lia | rewrite Z.min_l by lia]; reflexivity.
Qed.

Lemma set_max_number (v : Z) :
  CounterTrait_set_max (VInt v) d =
  (inr tt, <["max" := VInt (Z.max (match lo with Some l => Z.max l v | None => v end)
                              (b + m))]> d).
Proof using Hbase Hmod Hmin.
  unfold CounterTrait_set_max, CounterTrait_min, CounterTrait_base, CounterTrait_mod.
  mrun. unfold py_gt. destruct lo as [l|]; mrun.
  - destruct (Z.ltb_spec l v); mrun.
    + rewrite (Z.max_r l v) by lia.
      destruct (Z.ltb_spec v (b + m)); mrun;
        [rewrite Z.max_r by lia | rewrite Z.max_l by lia]; reflexivity.
    + rewrite (Z.max_l l v) by lia.
      destruct (Z.ltb_spec l (b + m)); mrun;
        [rewrite Z.max_r by lia | rewrite Z.max_l by lia]; reflexivity.
  - destruct (Z.ltb_spec v (b + m)); mrun;
      [rewrite Z.max_r by lia | rewrite Z.max_l by lia]; reflexivity.
Qed.
End CounterSetters.

Lemma bound_VInt (o : option Z) (x : Z) : bound o = VInt x -> o = Some x.
Proof. destruct o; simpl; congruence. Qed.

Lemma each_bound_holds_invariant (d : record) :
  each_bound_holds d -> bounds_invariant d.
Proof.
  intros H b m lo hi Hb Hm Hlo Hhi.
  destruct (H b m Hb Hm) as [H1 H2].
  specialize (H1 lo Hlo). specialize (H2 hi Hhi). lia.
Qed.

Ltac bounds_fields :=
  repeat match goal with
         | H : <[_ := _]> _ !! _ = Some _ |- _ =>
           first [ rewrite lookup_insert_eq in H
                 | rewrite lookup_insert_ne in H by discriminate ]
         | H : ?d !! ?k = Some _, H' : ?d !! ?k = Some _ |- _ =>
           rewrite H in H'; injection H' as H'
         | H : bound _ = VInt _ |- _ => apply bound_VInt in H
         | H : Some _ = Some _ |- _ => injection H as H
         | H : VInt _ = VInt _ |- _ => injection H as H
         | H : ?o = Some _ |- _ => is_var o; subst o
         end.

(** C3, as the code has it. On a Counter record whose [base], [mod], [min]
    and [max] hold numbers (or [None] for an unset bound) and on which every
    set bound bounds [base + mod], a write to [base], [mod], [min] or [max]
    through the trait, of any value other than [None] to [base] or [mod],
    succeeds and leaves a record with the same property: the setter clamps
    the field being written. So [min <= max] and [min <= base + mod <= max]
    hold after the write whenever both bounds are set. *)
Theorem C3_setters_preserve_bounds (now : Z) (d : record) (key : string)
    (value : pyval) :
  numeric_bounds d -> each_bound_holds d ->
  key = "base" \/ key = "mod" \/ key = "min" \/ key = "max" ->
  (value = VNone -> key = "min" \/ key = "max") ->
  exists d',
    Trait___setattr__ now CounterCls key value d = (inr tt, d') /\
    numeric_bounds d' /\ each_bound_holds d' /\ bounds_invariant d'.
Proof.
  intros (b & m & lo & hi & Hb & Hm & Hlo & Hhi) Hinv Hkey Hnone.
  assert (Hold : (forall l, lo = Some l -> l <= b + m) /\
                 (forall h, hi = Some h -> b + m <= h)).
  { destruct (Hinv b m Hb Hm) as [H1 H2].
    split; intros x ->; [now apply H1 | now apply H2]. }
  destruct Hold as [Hlower Hupper].
  cut (exists d', Trait___setattr__ now CounterCls key value d = (inr tt, d') /\
                  numeric_bounds d' /\ each_bound_holds d').
  { intros (d' & H1 & H2 & H3). exists d'.
    split; [exact H1|]. split; [exact H2|].
    split; [exact H3 | now apply each_bound_holds_invariant]. }
  assert (Hsame : exists d', ((inr tt, d) : outcome unit * record) = (inr tt, d') /\
                             numeric_bounds d' /\ each_bound_holds d').
  { exists d. split; [reflexivity|]. split; [|exact Hinv]. now exists b, m, lo, hi. }
  destruct Hkey as [-> | [-> | [-> | ->]]].
  - change (Trait___setattr__ now CounterCls "base" value)
      with (CounterTrait_set_base value).
    destruct value as [|v|s|l|]; try exact Hsame.
    + destruct (Hnone eq_refl); discriminate.
    + rewrite (set_base_number d m lo hi Hm Hlo Hhi v). eexists. split; [reflexivity|].
      split.
      * exists (landed lo hi m v), m, lo, hi. now simplify_map_eq.
      * intros b' m' Hb' Hm'. split; intros x Hx; bounds_fields.
        -- pose proof (landed_lower (Some x) hi m v x eq_refl) as Hl.
           assert (forall h, hi = Some h -> x <= h) as Hxh.
           { intros h Hh. specialize (Hupper h Hh). specialize (Hlower x eq_refl). lia. }
           specialize (Hl Hxh). lia.
        -- pose proof (landed_upper lo (Some x) m v x eq_refl). lia.
  - change (Trait___setattr__ now CounterCls "mod" value)
      with (CounterTrait_set_mod value).
    destruct value as [|v|s|l|]; try exact Hsame.
    + destruct (Hnone eq_refl); discriminate.
    + rewrite (set_mod_number d b lo hi Hb Hlo Hhi v). eexists. split; [reflexivity|].
      split.
      * exists b, (landed lo hi b v), lo, hi. now simplify_map_eq.
      * intros b' m' Hb' Hm'. split; intros x Hx; bounds_fields.
        -- pose proof (landed_lower (Some x) hi b v x eq_refl) as Hl.
           assert (forall h, hi = Some h -> x <= h) as Hxh.
           { intros h Hh. specialize (Hupper h Hh). specialize (Hlower x eq_refl). lia. }
           specialize (Hl Hxh). lia.
        -- pose proof (landed_upper lo (Some x) b v x eq_refl). lia.
  - change (Trait___setattr__ now CounterCls "min" value)
      with (CounterTrait_set_min value).
    destruct value as [|v|s|l|]; try exact Hsame.
    + eexists. split; [reflexivity|]. split.
      * exists b, m, None, hi. now simplify_map_eq.
      * intros b' m' Hb' Hm'. split; intros x Hx; bounds_fields; try discriminate;
          try specialize (Hupper _ eq_refl); try specialize (Hlower _ eq_refl); lia.
    + rewrite (set_min_number d b m hi Hb Hm Hhi v). eexists. split; [reflexivity|].
      split.
      * eexists b, m, (Some _), hi. now simplify_map_eq.
      * intros b' m' Hb' Hm'. split; intros x Hx; bounds_fields; try discriminate;
          try specialize (Hupper _ eq_refl); try specialize (Hlower _ eq_refl); lia.
  - change (Trait___setattr__ now CounterCls "max" value)
      with (CounterTrait_set_max value).
    destruct value as [|v|s|l|]; try exact Hsame.
    + eexists. split; [reflexivity|]. split.
      * exists b, m, lo, None. now simplify_map_eq.
      * intros b' m' Hb' Hm'. split; intros x Hx; bounds_fields; try discriminate;
          try specialize (Hupper _ eq_refl); try specialize (Hlower _ eq_refl); lia.
    + rewrite (set_max_number d b m lo Hb Hm Hlo v). eexists. split; [reflexivity|].
      split.
      * eexists b, m, lo, (Some _). now simplify_map_eq.
      * intros b' m' Hb' Hm'. split; intros x Hx; bounds_fields; try discriminate;
          try specialize (Hupper _ eq_refl); try specialize (Hlower _ eq_refl); lia.
Qed.

(** C3, the claim as stated fails twice. [add] stores the keyword arguments
    [base=10, min=20, max=5] of a Counter unchanged, so the invariant is not
    established at construction; and on a Counter in [5, 100] with
    [base=10], writing [None] to [base] resets it to 0 without clamping,
    below [min]. *)
Lemma C3_counterexample :
  (fst (add 1000 _TRAIT_CLASSES "skill" VNone "counter" true lopsided_fields
          empty_handler) = inr tt /\
   numeric_bounds (added 1000 "counter" lopsided_fields) /\
   ~ bounds_invariant (added 1000 "counter" lopsided_fields))
  /\
  (bounds_invariant (added 1000 "counter" ranged_fields) /\
   exists d',
     Trait___setattr__ 1000 CounterCls "base" VNone (added 1000 "counter" ranged_fields)
     = (inr tt, d') /\
     numeric_bounds d' /\ ~ bounds_invariant d').
Proof.
  split; [split; [reflexivity|split]|split].
  - exists 10, 0, (Some 20), (Some 5). repeat split; reflexivity.
  - intros H.
    destruct (H 10 0 20 5 eq_refl eq_refl eq_refl eq_refl) as [Hle _]. lia.
  - intros b m lo hi Hb Hm Hlo Hhi.
    vm_compute in Hb, Hm, Hlo, Hhi.
    injection Hb as <-. injection Hm as <-. injection Hlo as <-. injection Hhi as <-.
    lia.
  - eexists. split; [reflexivity|]. split.
    + exists 0, 0, (Some 5), (Some 100). repeat split; reflexivity.
    + intros H.
      destruct (H 0 0 5 100 eq_refl eq_refl eq_refl eq_refl) as [_ [Hle _]]. lia.
Qed.

Lemma C3_setters_preserve_bounds_witness :
  exists d',
    Trait___setattr__ 1000 CounterCls "base" (VInt 250)
      (added 1000 "counter" ranged_fields) = (inr tt, d') /\
    numeric_bounds d' /\ each_bound_holds d' /\ bounds_invariant d'.
Proof.
  apply (C3_setters_preserve_bounds 1000 (added 1000 "counter" ranged_fields)
           "base" (VInt 250)).
  - exists 10, 0, (Some 5), (Some 100). repeat split; reflexivity.
  - intros b m Hb Hm. vm_compute in Hb, Hm. injection Hb as <-. injection Hm as <-.
    split; intros x Hx; vm_compute in Hx; injection Hx as <-; lia.
  - left. reflexivity.
  - discriminate.
Defined.

(** ** Writing [current] and [ratetarget] on a Counter *)

Section CounterWrite.
Variable d : record.
Variables (b m r : Z) (lo hi rt lu : option Z).
Hypothesis Hbase : d !! "base" = Some (VInt b).
Hypothesis Hmod : d !! "mod" = Some (VInt m).
Hypothesis Hrate : d !! "rate" = Some (VInt r).
Hypothesis Hmin : d !! "min" = Some (bound lo).
Hypothesis Hmax : d !! "max" = Some (bound hi).
Hypothesis Hrt : d !! "ratetarget" = Some (bound rt).
Hypothesis Hlu : d !! "last_update" = Some (bound lu).

Lemma set_current_number (now v : Z) :
  CounterTrait_set_current now (VInt v) d =
  (inr tt,
   <["current" := VInt (clamp lo hi v)]>
     (if starts r lu lo hi rt (clamp lo hi v)
      then <["last_update" := VInt now]> d else d)).
Proof using Hrate Hmin Hmax Hrt Hlu.
  unfold CounterTrait_set_current. msimpl.
  erewrite (bind_eq (CounterTrait__enforce_boundaries _))
    by exact (enforce_boundaries_counter_eq d lo hi Hmin Hmax v).
  erewrite (bind_eq (_check_and_start_timer _ _ _))
    by exact (check_and_start_timer_counter_eq d r lo hi rt lu
                Hrate Hmin Hmax Hrt Hlu now (clamp lo hi v)).
  reflexivity.
Qed.
End CounterWrite.

(** C4, as the code has it. A write of a number to a Counter's [current]
    clamps the written number itself into the bounds, without regard to
    [mod]: when both bounds are set and [min <= max], the stored [current]
    lies in [min, max] after the write, and every later read of [value]
    (which clamps [current + mod]) lies in [min, max] as well. *)
Theorem C4_current_write_clamped (now : Z) (d : record) (b m r l h v : Z)
    (rt lu : option Z) :
  d !! "base" = Some (VInt b) -> d !! "mod" = Some (VInt m) ->
  d !! "rate" = Some (VInt r) ->
  d !! "min" = Some (VInt l) -> d !! "max" = Some (VInt h) ->
  d !! "ratetarget" = Some (bound rt) -> d !! "last_update" = Some (bound lu) ->
  l <= h ->
  exists d' c,
    Trait___setattr__ now CounterCls "current" (VInt v) d = (inr tt, d') /\
    d' !! "current" = Some (VInt c) /\ l <= c <= h /\
    forall later, exists x d'',
        CounterTrait_value later d' = (inr (VInt x), d'') /\ l <= x <= h.
Proof.
  intros Hb Hm Hr Hl Hh Hrt Hlu Hle.
  change (Trait___setattr__ now CounterCls "current" (VInt v))
    with (CounterTrait_set_current now (VInt v)).
  rewrite (set_current_number d r (Some l) (Some h) rt lu Hr Hl Hh Hrt Hlu).
  set (c := clamp (Some l) (Some h) v).
  set (go := starts r lu (Some l) (Some h) rt c).
  eexists. exists c. split; [reflexivity|].
  split; [now rewrite lookup_insert_eq|].
  split; [now apply clamp_between|].
  intros later.
  eexists. eexists. split.
  - apply (counter_value_eq _ b m r (Some l) (Some h) rt
             (if go then Some now else lu) (Some c));
      destruct go; now simplify_map_eq.
  - now apply clamp_between.
Qed.

(** C4, the claim as stated fails: on the Counter [base=50, mod=10, min=0,
    max=100], writing 95 to [current] stores 95, and 95 + 10 exceeds
    [max]. *)
Lemma C4_counterexample :
  exists d',
    Trait___setattr__ 1000 CounterCls "current" (VInt 95)
      (added 1000 "counter" modded_fields) = (inr tt, d') /\
    d' !! "current" = Some (VInt 95) /\ d' !! "mod" = Some (VInt 10) /\
    d' !! "min" = Some (VInt 0) /\ d' !! "max" = Some (VInt 100) /\
    ~ (0 <= 95 + 10 <= 100).
Proof.
  eexists. split; [reflexivity|]. repeat split; try reflexivity. lia.
Qed.

Lemma C4_current_write_clamped_witness :
  exists d' c,
    Trait___setattr__ 1000 CounterCls "current" (VInt 250)
      (added 1000 "counter" modded_fields) = (inr tt, d') /\
    d' !! "current" = Some (VInt c) /\ 0 <= c <= 100 /\
    forall later, exists x d'',
        CounterTrait_value later d' = (inr (VInt x), d'') /\ 0 <= x <= 100.
Proof.
  apply (C4_current_write_clamped 1000 (added 1000 "counter" modded_fields)
           50 10 0 0 100 250 None None); try reflexivity; lia.
Defined.




(** ** Gauges *)

Section GaugeRecord.
Variable d : record.
Variables (b m r : Z) (lo lu : option Z).
Hypothesis Hbase : d !! "base" = Some (VInt b).
Hypothesis Hmod : d !! "mod" = Some (VInt m).
Hypothesis Hmin : d !! "min" = Some (bound lo).
Hypothesis Hrate : d !! "rate" = Some (VInt r).
Hypothesis Hlu : d !! "last_update" = Some (bound lu).

Lemma gauge_min_eq : GaugeTrait_min d = (inr (VInt (default 0 lo)), d).
Proof using Hmin.
  unfold GaugeTrait_min. mstep. destruct lo; reflexivity.
Qed.

Lemma gauge_max_eq : GaugeTrait_max d = (inr (VInt (b + m)), d).
Proof using Hbase Hmod.
  unfold GaugeTrait_max, GaugeTrait_base, GaugeTrait_mod. mrun. reflexivity.
Qed.

Lemma enforce_boundaries_gauge_eq (v : Z) :
  GaugeTrait__enforce_boundaries (VInt v) d =
  (inr (VInt (gauge_clamp (default 0 lo) (m + b) v)), d).
Proof using Hbase Hmod Hmin.
  unfold GaugeTrait__enforce_boundaries, GaugeTrait_base, GaugeTrait_mod, gauge_clamp.
  erewrite (bind_eq GaugeTrait_min) by apply gauge_min_eq.
  mrun. destruct (v <=? default 0 lo); mrun; [reflexivity|].
  unfold lift. destruct (Z.ltb_spec v (m + b));
    [rewrite Z.min_r by lia | rewrite Z.min_l by lia]; reflexivity.
Qed.

Lemma update_current_gauge_idle (now : Z) (current : pyval) :
  r = 0 \/ lu = None ->
  GaugeTrait__update_current now current d = (inr current, d).
Proof using Hrate Hlu.
  intros Hidle. unfold GaugeTrait__update_current, self_rate. mstep.
  erewrite (bind_eq (timer_active _)) by exact (timer_active_eq d r lu Hlu).
  destruct Hidle as [-> | ->]; [reflexivity|].
  destruct (r =? 0); reflexivity.
Qed.

Lemma gauge_current_idle (now : Z) (cur : option Z) :
  r = 0 \/ lu = None ->
  d !! "current" = VInt <$> cur ->
  GaugeTrait_current now d =
  (inr (VInt (gauge_clamp (default 0 lo) (m + b) (default (b + m) cur))), d).
Proof using All.
  intros Hidle Hcur.
  unfold GaugeTrait_current, GaugeTrait_base, GaugeTrait_mod. mrun.
  rewrite Hcur.
  replace (default (VInt (b + m)) (VInt <$> cur)) with (VInt (default (b + m) cur))
    by (destruct cur; reflexivity).
  erewrite (bind_eq (GaugeTrait__enforce_boundaries _))
    by apply enforce_boundaries_gauge_eq.
  now apply update_current_gauge_idle.
Qed.

Lemma gauge_reset_eq (now : Z) :
  reset now IsGauge d = (inr tt, <["current" := VInt (b + m)]> d).
Proof using Hbase Hmod.
  unfold reset, Trait___delattr__.
  change (default_of (default_keys (class_of GaugeCls)) "current") with (@None pyval).
  cbv beta iota.
  erewrite (bind_eq (gets _)) by reflexivity.
  change (_DA now GaugeCls "current") with GaugeTrait_del_current.
  assert (GaugeTrait_del_current d = (inr tt, <["current" := VInt (b + m)]> d)) as H.
  { unfold GaugeTrait_del_current, GaugeTrait_base, GaugeTrait_mod. mrun. reflexivity. }
  destruct (has_key "current" d); unfold try_attribute_error; now rewrite H.
Qed.
End GaugeRecord.

Lemma gauge_clamp_full (lo top : Z) : lo <= top -> gauge_clamp lo top top = top.
Proof.
  intros H. unfold gauge_clamp. destruct (Z.leb_spec top lo); lia.
Qed.

(** C7. On a Gauge, reading [max] returns [base + mod] whatever else the
    record holds; every write to [max] and the deletion of [max] raise the
    trait exception and leave the record as it was; and a write to [base]
    moves [max] along: with [mod = 0], after [base = 110] the gauge reads
    [max == 110]. *)
Theorem C7_gauge_max_read_only (now : Z) (d : record) (b m : Z) (lo : option Z) :
  d !! "base" = Some (VInt b) -> d !! "mod" = Some (VInt m) ->
  d !! "min" = Some (bound lo) ->
  GaugeTrait_max d = (inr (VInt (b + m)), d) /\
  (forall value,
      Trait___setattr__ now GaugeCls "max" value d
      = (inl (TraitException MaxNotSettable), d)) /\
  Trait___delattr__ now GaugeCls "max" d = (inl (TraitException MaxNotResettable), d) /\
  (m = 0 -> default 0 lo <= 110 ->
   exists d',
     Trait___setattr__ now GaugeCls "base" (VInt 110) d = (inr tt, d') /\
     GaugeTrait_max d' = (inr (VInt 110), d') /\
     d' !! "max" = d !! "max").
Proof.
  intros Hb Hm Hlo.
  split; [exact (gauge_max_eq d b m Hb Hm)|].
  split; [reflexivity|].
  split.
  - unfold Trait___delattr__.
    change (default_of (default_keys (class_of GaugeCls)) "max") with (@None pyval).
    cbv beta iota.
    erewrite (bind_eq (gets _)) by reflexivity.
    destruct (has_key "max" d); reflexivity.
  - intros -> Hle.
    change (Trait___setattr__ now GaugeCls "base" (VInt 110))
      with (GaugeTrait_set_base (VInt 110)).
    unfold GaugeTrait_set_base, GaugeTrait_mod. mrun.
    erewrite (bind_eq GaugeTrait_min) by exact (gauge_min_eq d lo Hlo).
    mrun. destruct (Z.ltb_spec (110 + 0) (default 0 lo)); [lia|]. mrun.
    eexists. split; [reflexivity|]. split.
    + now rewrite (gauge_max_eq _ 110 0) by now simplify_map_eq.
    + now rewrite lookup_insert_ne by discriminate.
Qed.

Lemma C7_gauge_max_read_only_witness :
  GaugeTrait_max (added 1000 "gauge" (gauge_fields 100 0))
  = (inr (VInt (100 + 0)), added 1000 "gauge" (gauge_fields 100 0)).
Proof.
  apply (C7_gauge_max_read_only 1000 (added 1000 "gauge" (gauge_fields 100 0))
           100 0 (Some 0)); reflexivity.
Defined.

Lemma add_plain_gauge (now b m : Z) :
  (add now _TRAIT_CLASSES "hp" VNone "gauge" true (gauge_fields b m) ;;;
   get now _TRAIT_CLASSES "hp") empty_handler
  = (inr (Some GaugeTrait_class),
     {| trait_data := {[ "hp" := plain_gauge b m ]};
        _cache := {[ "hp" := GaugeTrait_class ]} |}).
Proof. vm_compute. reflexivity. Qed.

(** C8. A Gauge whose timer is idle and whose floor does not exceed
    [base + mod]: without a stored [current] it reads [value == base + mod];
    [value] is [current]; [reset()] stores [base + mod] as [current], after
    which [value == base + mod]. Freshly added with [base=b, mod=m]
    ([0 <= b + m]) and fetched from the handler it reads [b + m]; and with
    [base=100], after [current -= 30] the value is 70 and after [reset()] it
    is 100. *)
Theorem C8_gauge_starts_full_and_refills :
  (forall (now : Z) (d : record) (b m r : Z) (lo lu : option Z),
      d !! "base" = Some (VInt b) -> d !! "mod" = Some (VInt m) ->
      d !! "min" = Some (bound lo) -> d !! "rate" = Some (VInt r) ->
      d !! "last_update" = Some (bound lu) ->
      r = 0 \/ lu = None ->
      default 0 lo <= b + m ->
      (d !! "current" = None -> GaugeTrait_value now d = (inr (VInt (b + m)), d)) /\
      GaugeTrait_value now d = GaugeTrait_current now d /\
      reset now IsGauge d = (inr tt, <["current" := VInt (b + m)]> d) /\
      GaugeTrait_value now (<["current" := VInt (b + m)]> d)
      = (inr (VInt (b + m)), <["current" := VInt (b + m)]> d))
  /\ (forall now later b m : Z,
         0 <= b + m ->
         exists h,
           (add now _TRAIT_CLASSES "hp" VNone "gauge" true (gauge_fields b m) ;;;
            get now _TRAIT_CLASSES "hp") empty_handler
           = (inr (Some GaugeTrait_class), h) /\
           fst (on_trait "hp" (GaugeTrait_value later) h) = inr (VInt (b + m)))
  /\ (forall now : Z, fst (gauge_refill now) = inr (VInt 100, VInt 70, VInt 100)).
Proof.
  split; [|split].
  - intros now d b m r lo lu Hb Hm Hlo Hr Hlu Hidle Hle.
    split; [|split; [reflexivity|split]].
    + intros Hcur. unfold GaugeTrait_value.
      rewrite (gauge_current_idle d b m r lo lu Hb Hm Hlo Hr Hlu now None Hidle)
        by (rewrite Hcur; reflexivity).
      simpl default. replace (m + b) with (b + m) by lia.
      now rewrite gauge_clamp_full.
    + exact (gauge_reset_eq d b m Hb Hm now).
    + unfold GaugeTrait_value.
      rewrite (gauge_current_idle _ b m r lo lu) with (cur := Some (b + m));
        first [ exact Hidle | now simplify_map_eq | idtac ].
      simpl default. replace (m + b) with (b + m) by lia.
      now rewrite gauge_clamp_full.
  - intros now later b m Hle. eexists. split; [apply add_plain_gauge|].
    unfold on_trait. cbn [trait_data]. rewrite lookup_singleton_eq.
    unfold GaugeTrait_value.
    rewrite (gauge_current_idle (plain_gauge b m) b m 0 (Some 0) None) with (cur := None);
      first [ reflexivity | now left | idtac ].
    simpl. replace (m + b) with (b + m) by lia.
    now rewrite gauge_clamp_full.
  - intros now. vm_compute. reflexivity.
Qed.

(** C8, the claim as stated fails: [add("hp", trait_type="gauge", base=-5)]
    is accepted; the Gauge stored has [min = 0] above [base + mod = -5], and
    it reads [value == 0], before and after [reset()], not [base + mod]. *)
Lemma C8_counterexample :
  (add 1000 _TRAIT_CLASSES "hp" VNone "gauge" true (<["base" := VInt (-5)]> ∅) ;;;
   get 1000 _TRAIT_CLASSES "hp") empty_handler
  = (inr (Some GaugeTrait_class),
     {| trait_data := {[ "hp" := plain_gauge (-5) 0 ]};
        _cache := {[ "hp" := GaugeTrait_class ]} |}) /\
  GaugeTrait_value 1000 (plain_gauge (-5) 0) = (inr (VInt 0), plain_gauge (-5) 0) /\
  (reset 1000 IsGauge ;;; GaugeTrait_value 1000) (plain_gauge (-5) 0)
  = (inr (VInt 0), <["current" := VInt (-5)]> (plain_gauge (-5) 0)) /\
  0 <> -5 + 0.
Proof.
  split; [vm_compute; reflexivity|]. split; [vm_compute; reflexivity|].
  split; [vm_compute; reflexivity|]. lia.
Qed.

Lemma C8_gauge_starts_full_and_refills_witness :
  GaugeTrait_value 1000 (plain_gauge 100 0) = (inr (VInt (100 + 0)), plain_gauge 100 0).
Proof.
  apply (proj1 C8_gauge_starts_full_and_refills 1000 (plain_gauge 100 0) 100 0 0
           (Some 0) None); try reflexivity; [now left | simpl; lia].
Defined.

(** ** The handler *)

Lemma missing_mandatory_spec (cls : trait_class) (d : record) (key : string) :
  In key (missing_mandatory cls d) <->
  (exists v, In (key, v) (default_keys cls) /\ is_mandatory v = true) /\ d !! key = None.
Proof.
  unfold missing_mandatory. rewrite in_map_iff. split.
  - intros ([k v] & <- & Hin).
    apply filter_In in Hin as [Hin Hm]. apply filter_In in Hin as [Hin Hk].
    simpl in *. split; [now exists v|].
    unfold has_key in Hk. now destruct (d !! k).
  - intros [(v & Hin & Hm) Hk]. exists (key, v). split; [reflexivity|].
    apply filter_In. split; [|exact Hm]. apply filter_In. split; [exact Hin|].
    simpl. unfold has_key. now rewrite Hk.
Qed.

Lemma filter_none {A} (f : A -> bool) (l : list A) :
  existsb f l = false -> List.filter f l = [].
Proof.
  induction l as [|x rest IH]; [reflexivity|].
  simpl. intros E. apply orb_false_iff in E as [E1 E2]. rewrite E1. now apply IH.
Qed.

Lemma Trait_validate_input_missing (cls : trait_class) (d : record) :
  is_Some (d !! "name") -> is_Some (d !! "trait_type") ->
  missing_mandatory cls d <> [] ->
  Trait_validate_input cls d =
  (inl (TraitException (MissesRequiredKeys (trait_type cls) (missing_mandatory cls d))), d).
Proof.
  intros [n Hn] [t Ht] Hmiss.
  unfold Trait_validate_input. erewrite (bind_eq (gets _)) by reflexivity.
  assert (has_key "name" d = true) as Hname by (unfold has_key; now rewrite Hn).
  assert (has_key "trait_type" d = true) as Htype by (unfold has_key; now rewrite Ht).
  cbv beta. cbn [List.filter]. rewrite Hname, Htype. cbn [negb].
  unfold missing_mandatory in *.
  set (unset := List.filter (fun kv => negb (has_key kv.1 d)) (default_keys cls)) in *.
  destruct (existsb (fun kv => is_mandatory kv.2) unset) eqn:E; [reflexivity|].
  exfalso. apply Hmiss. now rewrite (filter_none _ _ E).
Qed.

Lemma validate_input_missing (now : Z) (cls : trait_class) (d : record) :
  is_Some (d !! "name") -> is_Some (d !! "trait_type") ->
  missing_mandatory cls d <> [] ->
  validate_input now cls d =
  (inl (TraitException (MissesRequiredKeys (trait_type cls) (missing_mandatory cls d))), d).
Proof.
  intros Hn Ht Hmiss. unfold validate_input, CounterTrait_validate_input.
  destruct (counter_validation cls).
  - erewrite bind_raise; [reflexivity|]. now apply Trait_validate_input_missing.
  - now apply Trait_validate_input_missing.
Qed.

(** C5, as the code has it. When the class's validation rejects the merged
    field set, [add] raises the validation's exception and stores nothing
    under the key; records under other keys are untouched, and the handler
    is unchanged when the key was not present. A record already stored under
    the key has been removed (together with its cached wrapper) before the
    validation ran. When required keys are missing, the exception names
    exactly the required keys of the class that the field set lacks. *)
Theorem C5_failed_add (now : Z) (classes : registry) (h : handler)
    (trait_key : string) (name : pyval) (ttype : string) (force : bool)
    (props : record) (cls : trait_class) (e : exn) (partial : record) :
  classes !! ttype = Some cls ->
  force = true \/ trait_data h !! trait_key = None ->
  validate_input now cls (merged_properties trait_key name ttype props)
  = (inl e, partial) ->
  add now classes trait_key name ttype force props h = (inl e, without trait_key h) /\
  trait_data (without trait_key h) !! trait_key = None /\
  (forall other, other <> trait_key ->
                 trait_data (without trait_key h) !! other = trait_data h !! other) /\
  (trait_data h !! trait_key = None -> without trait_key h = h) /\
  (missing_mandatory cls (merged_properties trait_key name ttype props) <> [] ->
   e = TraitException
         (MissesRequiredKeys (trait_type cls)
            (missing_mandatory cls (merged_properties trait_key name ttype props)))) /\
  (forall key,
      In key (missing_mandatory cls (merged_properties trait_key name ttype props)) <->
      (exists v, In (key, v) (default_keys cls) /\ is_mandatory v = true) /\
      merged_properties trait_key name ttype props !! key = None).
Proof.
  intros Hcls Hforce Hval.
  split; [|split; [|split; [|split; [|split]]]].
  - unfold add, without.
    erewrite (bind_eq (gets _)) by reflexivity.
    destruct (trait_data h !! trait_key) as [old|] eqn:Hold.
    + destruct Hforce as [-> | ?]; [|discriminate].
      rewrite bool_decide_eq_true_2 by eauto.
      erewrite (bind_eq (remove _)) by (unfold remove; rewrite Hold; reflexivity).
      rewrite Hcls. fold (merged_properties trait_key name ttype props).
      now rewrite Hval.
    + rewrite bool_decide_eq_false_2 by (intros [? ?]; discriminate).
      erewrite (bind_eq (ret _)) by reflexivity.
      rewrite Hcls. fold (merged_properties trait_key name ttype props).
      now rewrite Hval.
  - unfold without. destruct (trait_data h !! trait_key) eqn:Hold; [|exact Hold].
    apply lookup_delete_eq.
  - intros other Hne. unfold without.
    destruct (trait_data h !! trait_key); [|reflexivity].
    now apply lookup_delete_ne.
  - intros Hnone. unfold without. now rewrite Hnone.
  - intros Hmiss.
    rewrite validate_input_missing in Hval; [congruence| | |exact Hmiss];
      unfold merged_properties; now simplify_map_eq.
  - intros key. apply missing_mandatory_spec.
Qed.

(** C5, the claim as stated fails: the handler holds the Gauge ["hp"]; a
    forced [add("hp", trait_type="counter", descs={"low": 1})] is rejected
    by the validation of [descs], and ["hp"] is gone from the store. *)
Lemma C5_counterexample :
  trait_data handler_with_hp !! "hp" = Some (plain_gauge 100 0) /\
  exists h',
    add 1000 _TRAIT_CLASSES "hp" VNone "counter" true bad_descs_fields handler_with_hp
    = (inl (TraitException DescsMalformed), h') /\
    trait_data h' !! "hp" = None /\ trait_data h' <> trait_data handler_with_hp.
Proof.
  split; [reflexivity|]. eexists. split; [vm_compute; reflexivity|].
  split; [reflexivity|]. intros H.
  apply (f_equal (fun t => t !! "hp")) in H. vm_compute in H. discriminate.
Qed.

Lemma C5_failed_add_witness :
  add 1000 classes_with_rage "mood" VNone "rage" true ∅ handler_with_hp
  = (inl (TraitException (MissesRequiredKeys "rage" ["rage"])),
     without "mood" handler_with_hp).
Proof.
  eapply (C5_failed_add 1000 classes_with_rage handler_with_hp "mood" VNone "rage"
            true ∅ RageTrait_class).
  - reflexivity.
  - left. reflexivity.
  - reflexivity.
Defined.

(** ** Reading twice at one clock reading *)

Lemma counter_step_again (now r m : Z) (lu rt lo hi : option Z) (c : Z) :
  negb (r =? 0) && is_set lu = true ->
  counter_step now r m (snd (counter_step now r m lu rt lo hi c)) rt lo hi
    (fst (counter_step now r m lu rt lo hi c))
  = counter_step now r m lu rt lo hi c.
Proof.
  intros Hact. apply andb_true_iff in Hact as [Hr Hlu].
  destruct lu as [t0|]; [|discriminate]. apply negb_true_iff in Hr.
  destruct (counter_step now r m (Some t0) rt lo hi c) as [c1 lu1] eqn:Hs.
  unfold counter_step in Hs. rewrite Hr in Hs. cbn [fst snd].
  destruct (passed rt r (c + r * (now - t0) + m)) eqn:Ep.
  { injection Hs as <- <-. reflexivity. }
  destruct (within lo hi (c + r * (now - t0) + m)) eqn:Ew; cbn [negb] in Hs.
  - injection Hs as <- <-. unfold counter_step. rewrite Hr.
    replace (c + r * (now - t0) + r * (now - now)) with (c + r * (now - t0)) by lia.
    now rewrite Ep, Ew.
  - injection Hs as <- <-. reflexivity.
Qed.

Lemma insert_pair_again (d : record) (x y : pyval) :
  <["current" := x]> (<["last_update" := y]>
    (<["current" := x]> (<["last_update" := y]> d)))
  = <["current" := x]> (<["last_update" := y]> d).
Proof.
  apply map_eq. intros k. rewrite !lookup_insert.
  repeat case_decide; reflexivity.
Qed.

(** X5. On a Counter with numeric fields, reading [value] again at the same
    clock reading returns the same value and leaves the same record. *)
Lemma counter_value_reread (d : record) (now b m r : Z) (lo hi rt lu cur : option Z) :
  d !! "base" = Some (VInt b) -> d !! "mod" = Some (VInt m) ->
  d !! "rate" = Some (VInt r) ->
  d !! "min" = Some (bound lo) -> d !! "max" = Some (bound hi) ->
  d !! "ratetarget" = Some (bound rt) -> d !! "last_update" = Some (bound lu) ->
  d !! "current" = VInt <$> cur ->
  CounterTrait_value now (snd (CounterTrait_value now d)) = CounterTrait_value now d.
Proof.
  intros Hb Hm Hr Hlo Hhi Hrt Hlu Hcur.
  rewrite (counter_value_eq d b m r lo hi rt lu cur Hb Hm Hr Hlo Hhi Hrt Hlu Hcur now).
  cbn [snd]. unfold counter_after_read.
  destruct (negb (r =? 0) && is_set lu) eqn:Hact.
  - set (s := counter_step now r m lu rt lo hi (default b cur)).
    rewrite (counter_value_eq _ b m r lo hi rt (snd s) (Some (fst s)));
      try (now simplify_map_eq).
    cbn [default]. unfold counter_after_read.
    subst s. rewrite counter_step_again by exact Hact.
    set (s := counter_step now r m lu rt lo hi (default b cur)).
    f_equal.
    destruct (negb (r =? 0) && is_set (snd s)); [|reflexivity].
    apply insert_pair_again.
  - rewrite (counter_value_eq d b m r lo hi rt lu cur Hb Hm Hr Hlo Hhi Hrt Hlu Hcur now).
    unfold counter_after_read. now rewrite Hact.
Qed.

(** C2, at the failing input: the Gauge [add(trait_type="gauge", base=100,
    rate=1, ratetarget=150)], added at clock reading 1000, has [rate = 1]
    and [last_update = 1000]; [value] read at 1060 is 150, and read again at
    1060 it is 100. *)
Theorem C2_gauge_reread_differs :
  added 1000 "gauge" overdriven_fields !! "rate" = Some (VInt 1) /\
  added 1000 "gauge" overdriven_fields !! "last_update" = Some (VInt 1000) /\
  fst (GaugeTrait_value 1060 (added 1000 "gauge" overdriven_fields))
  = inr (VInt 150) /\
  fst (GaugeTrait_value 1060
         (snd (GaugeTrait_value 1060 (added 1000 "gauge" overdriven_fields))))
  = inr (VInt 100).
Proof. repeat split; vm_compute; reflexivity. Qed.

(** C6, at the failing input. A write to [rate] on a Counter or a Gauge only
    stores the value: no class defines a [rate] property, so the timer check
    does not run. In the session of the module documentation ([ratetarget =
    71], [current = 40], then [rate = 1]) the rate is 1, the value 41 lies
    strictly inside the bounds and below the rate target, yet [last_update]
    is unset, and 5 seconds later [value] still reads 41. *)
Theorem C6_rate_write_skips_timer_check :
  (forall (now : Z) (v : pyval) (d : record),
      Trait___setattr__ now CounterCls "rate" v d = (inr tt, <["rate" := v]> d) /\
      Trait___setattr__ now GaugeCls "rate" v d = (inr tt, <["rate" := v]> d))
  /\ fst (documented_session 1000) = inr tt
  /\ snd (documented_session 1000) !! "rate" = Some (VInt 1)
  /\ snd (documented_session 1000) !! "last_update" = Some VNone
  /\ snd (documented_session 1000) !! "current" = Some (VInt 40)
  /\ snd (documented_session 1000) !! "mod" = Some (VInt 1)
  /\ snd (documented_session 1000) !! "min" = Some (VInt 0)
  /\ snd (documented_session 1000) !! "max" = Some (VInt 100)
  /\ snd (documented_session 1000) !! "ratetarget" = Some (VInt 71)
  /\ fst (CounterTrait_value 1005 (snd (documented_session 1000))) = inr (VInt 41).
Proof.
  split; [intros; split; reflexivity|].
  repeat split; vm_compute; reflexivity.
Qed.

(** C9, at the failing input. On a Static trait a write to [mod] stores
    numbers only, but [base] is no property of the class: a write to [base]
    stores any value. After [base = "strong"] on the trait [base=10, mod=2]
    the record holds the string, and reading [value] raises [TypeError]. *)
Theorem C9_static_base_write_unguarded :
  (forall (now : Z) (v : pyval) (d : record),
      Trait___setattr__ now StaticCls "mod" v d
      = (inr tt, if is_number v then <["mod" := v]> d else d))
  /\ (forall (now : Z) (v : pyval) (d : record),
         Trait___setattr__ now StaticCls "base" v d = (inr tt, <["base" := v]> d))
  /\ fst (StaticTrait_value (added 1000 "static" strength_fields)) = inr (VInt 12)
  /\ snd (Trait___setattr__ 1000 StaticCls "base" (VStr "strong")
            (added 1000 "static" strength_fields)) !! "base" = Some (VStr "strong")
  /\ fst (StaticTrait_value
            (snd (Trait___setattr__ 1000 StaticCls "base" (VStr "strong")
                    (added 1000 "static" strength_fields)))) = inl TypeError.
Proof.
  split; [|split].
  - intros now v d.
    change (Trait___setattr__ now StaticCls "mod" v) with (StaticTrait_set_mod v).
    unfold StaticTrait_set_mod. destruct (is_number v); reflexivity.
  - reflexivity.
  - repeat split; vm_compute; reflexivity.
Qed.

(** * Further properties *)

(** ** Reads of a Counter *)

Lemma clamp_lower (lo hi : option Z) (v l : Z) :
  lo = Some l -> (forall h, hi = Some h -> l <= h) -> l <= clamp lo hi v.
Proof.
  intros -> H. unfold clamp, below, above. simpl.
  destruct (Z.leb_spec v l); [lia|].
  destruct hi as [h|]; [|lia]. specialize (H h eq_refl).
  destruct (Z.leb_spec h v); simpl; lia.
Qed.

Lemma clamp_upper (lo hi : option Z) (v h : Z) :
  hi = Some h -> (forall l, lo = Some l -> l <= h) -> clamp lo hi v <= h.
Proof.
  intros -> H. unfold clamp, below, above.
  destruct lo as [l|].
  - specialize (H l eq_refl). destruct (Z.leb_spec v l); [simpl; lia|].
    destruct (Z.leb_spec h v); simpl; lia.
  - destruct (Z.leb_spec h v); simpl; lia.
Qed.

Lemma clamp_again (lo hi : option Z) (v : Z) :
  (forall l h, lo = Some l -> hi = Some h -> l <= h) ->
  clamp lo hi (clamp lo hi v) = clamp lo hi v.
Proof.
  intros H. unfold clamp, below, above.
  destruct lo as [l|], hi as [h|]; simpl;
    try specialize (H _ _ eq_refl eq_refl);
    repeat match goal with
           | |- context [?x <=? ?y] => destruct (Z.leb_spec x y); simpl
           end; lia.
Qed.

(** X1. Every read of a Counter's [value] succeeds and returns a number
    within the bounds that are set, whatever the stored [current], the rate
    and the clock: at least [min] when [min] is set, at most [max] when
    [max] is set (the two bounds are assumed to be in order when both are
    set). *)
Theorem counter_value_within_bounds (now : Z) (d : record) (b m r : Z)
    (lo hi rt lu cur : option Z) :
  d !! "base" = Some (VInt b) -> d !! "mod" = Some (VInt m) ->
  d !! "rate" = Some (VInt r) ->
  d !! "min" = Some (bound lo) -> d !! "max" = Some (bound hi) ->
  d !! "ratetarget" = Some (bound rt) -> d !! "last_update" = Some (bound lu) ->
  d !! "current" = VInt <$> cur ->
  (forall l h, lo = Some l -> hi = Some h -> l <= h) ->
  exists v d',
    CounterTrait_value now d = (inr (VInt v), d') /\
    (forall l, lo = Some l -> l <= v) /\
    (forall h, hi = Some h -> v <= h).
Proof.
  intros Hb Hm Hr Hlo Hhi Hrt Hlu Hcur Hle.
  rewrite (counter_value_eq d b m r lo hi rt lu cur Hb Hm Hr Hlo Hhi Hrt Hlu Hcur now).
  eexists. eexists. split; [reflexivity|]. split.
  - intros l Hl. apply clamp_lower; [exact Hl|]. intros h Hh. now apply Hle.
  - intros h Hh. apply clamp_upper; [exact Hh|]. intros l Hl. now apply Hle.
Qed.

Lemma counter_value_within_bounds_witness :
  exists v d',
    CounterTrait_value 1100 (hunting 1000) = (inr (VInt v), d') /\
    (forall l, Some 0 = Some l -> l <= v) /\
    (forall h, Some 100 = Some h -> v <= h).
Proof.
  apply (counter_value_within_bounds 1100 (hunting 1000) 10 1 1 (Some 0) (Some 100)
           (Some 71) (Some 1000) (Some 41)); try reflexivity.
  intros l h Hl Hh. injection Hl as <-. injection Hh as <-. lia.
Defined.

Lemma counter_idle_value_eq (now : Z) (d : record) (b m r : Z)
    (lo hi rt cur : option Z) :
  d !! "base" = Some (VInt b) -> d !! "mod" = Some (VInt m) ->
  d !! "rate" = Some (VInt r) ->
  d !! "min" = Some (bound lo) -> d !! "max" = Some (bound hi) ->
  d !! "ratetarget" = Some (bound rt) -> d !! "last_update" = Some VNone ->
  d !! "current" = VInt <$> cur ->
  CounterTrait_value now d = (inr (VInt (clamp lo hi (default b cur + m))), d).
Proof.
  intros Hb Hm Hr Hlo Hhi Hrt Hlu Hcur.
  rewrite (counter_value_eq d b m r lo hi rt None cur Hb Hm Hr Hlo Hhi Hrt Hlu Hcur now).
  unfold counter_after_read, counter_step. cbn [is_set].
  now rewrite andb_false_r.
Qed.

(** X2. While the timer of a Counter is off ([last_update] unset), a read of
    [value] does not depend on the clock and leaves the record as it is: it
    returns the stored [current] (or [base]) plus [mod], clamped. *)
Theorem counter_timer_off_read (now : Z) (d : record) (b m r : Z)
    (lo hi rt cur : option Z) :
  d !! "base" = Some (VInt b) -> d !! "mod" = Some (VInt m) ->
  d !! "rate" = Some (VInt r) ->
  d !! "min" = Some (bound lo) -> d !! "max" = Some (bound hi) ->
  d !! "ratetarget" = Some (bound rt) -> d !! "last_update" = Some VNone ->
  d !! "current" = VInt <$> cur ->
  CounterTrait_value now d = (inr (VInt (clamp lo hi (default b cur + m))), d).
Proof. apply counter_idle_value_eq. Qed.

Lemma counter_timer_off_read_witness :
  CounterTrait_value 1234 (added 1000 "counter" modded_fields)
  = (inr (VInt (clamp (Some 0) (Some 100) (default 50 None + 10))),
     added 1000 "counter" modded_fields).
Proof.
  apply (counter_timer_off_read 1234 (added 1000 "counter" modded_fields) 50 10 0
           (Some 0) (Some 100) None None); reflexivity.
Defined.

(** X3. Once a read of a Counter's [value] has left the timer off, every
    later read, at any clock reading, returns the value of that read and
    leaves the record it left. *)
Theorem counter_stopped_stays (now later : Z) (d : record) (b m r : Z)
    (lo hi rt lu cur : option Z) :
  d !! "base" = Some (VInt b) -> d !! "mod" = Some (VInt m) ->
  d !! "rate" = Some (VInt r) ->
  d !! "min" = Some (bound lo) -> d !! "max" = Some (bound hi) ->
  d !! "ratetarget" = Some (bound rt) -> d !! "last_update" = Some (bound lu) ->
  d !! "current" = VInt <$> cur ->
  snd (CounterTrait_value now d) !! "last_update" = Some VNone ->
  CounterTrait_value later (snd (CounterTrait_value now d)) = CounterTrait_value now d.
Proof.
  intros Hb Hm Hr Hlo Hhi Hrt Hlu Hcur.
  rewrite (counter_value_eq d b m r lo hi rt lu cur Hb Hm Hr Hlo Hhi Hrt Hlu Hcur now).
  cbn [snd]. unfold counter_after_read.
  set (s := counter_step now r m lu rt lo hi (default b cur)).
  destruct (negb (r =? 0) && is_set lu) eqn:Hact; intros Hoff.
  - rewrite lookup_insert_ne, lookup_insert_eq in Hoff by discriminate.
    rewrite (counter_idle_value_eq later _ b m r lo hi rt (Some (fst s)));
      first [ reflexivity
            | rewrite lookup_insert_ne, lookup_insert_eq by discriminate; exact Hoff
            | now simplify_map_eq ].
  - rewrite (counter_idle_value_eq later d b m r lo hi rt cur); auto.
    f_equal. subst s. unfold counter_step.
    apply andb_false_iff in Hact as [Hact|Hact].
    + apply negb_false_iff in Hact. rewrite Hact. now destruct lu.
    + destruct lu; [discriminate|reflexivity].
Qed.

Lemma counter_stopped_stays_witness :
  CounterTrait_value 5000 (snd (CounterTrait_value 1100 (hunting 1000)))
  = CounterTrait_value 1100 (hunting 1000).
Proof.
  apply (counter_stopped_stays 1100 5000 (hunting 1000) 10 1 1 (Some 0) (Some 100)
           (Some 71) (Some 1000) (Some 41)); reflexivity.
Defined.

Lemma insert_pair_over (d : record) (x y x' y' : pyval) :
  <["current" := x]> (<["last_update" := y]>
    (<["current" := x']> (<["last_update" := y']> d)))
  = <["current" := x]> (<["last_update" := y]> d).
Proof.
  apply map_eq. intros k. rewrite !lookup_insert.
  repeat case_decide; reflexivity.
Qed.

(** X4. Reads of a running Counter compose: when a read of [value] at clock
    reading [t1] leaves the timer running, a following read at [t2] returns
    the same value and leaves the same record as a single read at [t2]
    would have. *)
Theorem counter_reads_compose (t0 t1 t2 : Z) (d : record) (b m r : Z)
    (lo hi rt cur : option Z) :
  d !! "base" = Some (VInt b) -> d !! "mod" = Some (VInt m) ->
  d !! "rate" = Some (VInt r) -> r <> 0 ->
  d !! "min" = Some (bound lo) -> d !! "max" = Some (bound hi) ->
  d !! "ratetarget" = Some (bound rt) -> d !! "last_update" = Some (VInt t0) ->
  d !! "current" = VInt <$> cur ->
  snd (CounterTrait_value t1 d) !! "last_update" = Some (VInt t1) ->
  CounterTrait_value t2 (snd (CounterTrait_value t1 d)) = CounterTrait_value t2 d.
Proof.
  intros Hb Hm Hr Hr0 Hlo Hhi Hrt Hlu Hcur.
  rewrite (counter_value_eq d b m r lo hi rt (Some t0) cur
             Hb Hm Hr Hlo Hhi Hrt Hlu Hcur t1).
  rewrite (counter_value_eq d b m r lo hi rt (Some t0) cur
             Hb Hm Hr Hlo Hhi Hrt Hlu Hcur t2).
  cbn [snd]. unfold counter_after_read. cbn [is_set].
  apply Z.eqb_neq in Hr0. rewrite Hr0. cbn [negb andb].
  set (c := default b cur).
  destruct (counter_step t1 r m (Some t0) rt lo hi c) as [c1 lu1] eqn:Hs1.
  cbn [fst snd]. rewrite lookup_insert_ne, lookup_insert_eq by discriminate.
  intros Hrun.
  assert (c1 = c + r * (t1 - t0) /\ lu1 = Some t1) as [-> ->].
  { unfold counter_step in Hs1. rewrite Hr0 in Hs1.
    destruct (passed rt r (c + r * (t1 - t0) + m));
      [injection Hs1 as <- <-; discriminate|].
    destruct (within lo hi (c + r * (t1 - t0) + m)); cbn [negb] in Hs1;
      injection Hs1 as <- <-; [split; reflexivity | discriminate]. }
  rewrite (counter_value_eq _ b m r lo hi rt (Some t1) (Some (c + r * (t1 - t0))));
    try (now simplify_map_eq).
  cbn [default from_option]. unfold id, counter_after_read.
  cbn [is_set]. rewrite Hr0. cbn [negb andb].
  assert (counter_step t2 r m (Some t1) rt lo hi (c + r * (t1 - t0))
          = counter_step t2 r m (Some t0) rt lo hi c) as ->.
  { unfold counter_step. rewrite Hr0.
    replace (c + r * (t1 - t0) + r * (t2 - t1)) with (c + r * (t2 - t0)) by lia.
    reflexivity. }
  now rewrite insert_pair_over.
Qed.

Lemma counter_reads_compose_witness :
  CounterTrait_value 1020 (snd (CounterTrait_value 1005 (hunting 1000)))
  = CounterTrait_value 1020 (hunting 1000).
Proof.
  apply (counter_reads_compose 1000 1005 1020 (hunting 1000) 10 1 1 (Some 0) (Some 100)
           (Some 71) (Some 41)); try reflexivity; lia.
Defined.

(** The lemma [counter_value_reread] at the Counter of the module
    documentation. *)
Lemma counter_value_reread_witness :
  CounterTrait_value 1005 (snd (CounterTrait_value 1005 (hunting 1000)))
  = CounterTrait_value 1005 (hunting 1000).
Proof.
  apply (counter_value_reread (hunting 1000) 1005 10 1 1 (Some 0) (Some 100)
           (Some 71) (Some 1000) (Some 41)); reflexivity.
Defined.

(** X6. A read of a running Counter whose extrapolated value (the probe,
    [current + rate * elapsed + mod]) has left the bounds without passing the
    rate target stops at a boundary. The boundary [edge] is the one
    [_enforce_boundaries] picks for the probe: [min] when the probe is at or
    below [min], [max] otherwise. The read stores [edge - mod] as [current]
    and unsets [last_update]; it returns [edge] passed through
    [_enforce_boundaries] once more, which is [edge] itself whenever
    [min <= max] or only one bound is set. *)
Theorem counter_boundary_stop (now t0 : Z) (d : record) (b m r : Z)
    (lo hi rt cur : option Z) :
  d !! "base" = Some (VInt b) -> d !! "mod" = Some (VInt m) ->
  d !! "rate" = Some (VInt r) -> r <> 0 ->
  d !! "min" = Some (bound lo) -> d !! "max" = Some (bound hi) ->
  d !! "ratetarget" = Some (bound rt) -> d !! "last_update" = Some (VInt t0) ->
  d !! "current" = VInt <$> cur ->
  passed rt r (default b cur + r * (now - t0) + m) = false ->
  within lo hi (default b cur + r * (now - t0) + m) = false ->
  exists edge,
    CounterTrait_value now d =
    (inr (VInt (clamp lo hi edge)),
     <["current" := VInt (edge - m)]> (<["last_update" := VNone]> d)) /\
    edge = clamp lo hi (default b cur + r * (now - t0) + m) /\
    (below lo (default b cur + r * (now - t0) + m) = true -> lo = Some edge) /\
    (below lo (default b cur + r * (now - t0) + m) = false -> hi = Some edge) /\
    ((forall l h, lo = Some l -> hi = Some h -> l <= h) -> clamp lo hi edge = edge).
Proof.
  intros Hb Hm Hr Hr0 Hlo Hhi Hrt Hlu Hcur Hp Hw.
  rewrite (counter_value_eq d b m r lo hi rt (Some t0) cur
             Hb Hm Hr Hlo Hhi Hrt Hlu Hcur now).
  unfold counter_after_read, counter_step. cbn [is_set].
  apply Z.eqb_neq in Hr0. rewrite Hr0, Hp, Hw. cbn [negb andb fst snd bound].
  set (probe := default b cur + r * (now - t0) + m).
  exists (clamp lo hi probe).
  replace (clamp lo hi probe - m + m) with (clamp lo hi probe) by lia.
  split; [reflexivity|]. split; [reflexivity|].
  unfold within in Hw. apply negb_false_iff in Hw. fold probe in Hw.
  split; [|split].
  - intros Eb. unfold clamp. rewrite Eb. destruct lo; [reflexivity|discriminate].
  - intros Eb. rewrite Eb in Hw. cbn [orb] in Hw. unfold clamp. rewrite Eb, Hw.
    destruct hi; [reflexivity|discriminate].
  - intros Hle. now apply clamp_again.
Qed.

Lemma counter_boundary_stop_witness :
  exists edge,
    CounterTrait_value 1100
      (<["ratetarget" := VNone]> (hunting 1000)) =
    (inr (VInt (clamp (Some 0) (Some 100) edge)),
     <["current" := VInt (edge - 1)]>
       (<["last_update" := VNone]> (<["ratetarget" := VNone]> (hunting 1000)))) /\
    edge = clamp (Some 0) (Some 100) (default 10 (Some 41) + 1 * (1100 - 1000) + 1).
Proof.
  destruct (counter_boundary_stop 1100 1000 (<["ratetarget" := VNone]> (hunting 1000))
              10 1 1 (Some 0) (Some 100) None (Some 41))
    as (edge & Hread & Hedge & _); try reflexivity; try lia.
  exists edge. split; [exact Hread | exact Hedge].
Defined.

(** With [min] above [max] the value returned and the value stored part:
    on the Counter added with [base=10, min=20, max=5, rate=1], a read 25
    seconds later probes 35, stores [max = 5] as [current] and returns
    [min = 20]. *)
Lemma counter_boundary_stop_unordered :
  fst (CounterTrait_value 1025
         (added 1000 "counter" (<["rate" := VInt 1]> lopsided_fields)))
  = inr (VInt 20) /\
  snd (CounterTrait_value 1025
         (added 1000 "counter" (<["rate" := VInt 1]> lopsided_fields)))
    !! "current" = Some (VInt 5) /\
  snd (CounterTrait_value 1025
         (added 1000 "counter" (<["rate" := VInt 1]> lopsided_fields)))
    !! "last_update" = Some VNone.
Proof.
  split; [vm_compute; reflexivity|]. split; vm_compute; reflexivity.
Qed.

(** X7. [reset()] on a Counter stores [base] as [current], whatever was
    stored, and touches nothing else; a second [reset()] changes nothing;
    and with the timer off, [value] then reads [base + mod], clamped. *)
Theorem counter_reset_to_base (now later : Z) (d : record) (b m r : Z)
    (lo hi rt : option Z) :
  d !! "base" = Some (VInt b) -> d !! "mod" = Some (VInt m) ->
  d !! "rate" = Some (VInt r) ->
  d !! "min" = Some (bound lo) -> d !! "max" = Some (bound hi) ->
  d !! "ratetarget" = Some (bound rt) -> d !! "last_update" = Some VNone ->
  reset now IsCounter d = (inr tt, <["current" := VInt b]> d) /\
  reset now IsCounter (<["current" := VInt b]> d)
  = (inr tt, <["current" := VInt b]> d) /\
  CounterTrait_value later (<["current" := VInt b]> d)
  = (inr (VInt (clamp lo hi (b + m))), <["current" := VInt b]> d).
Proof.
  intros Hb Hm Hr Hlo Hhi Hrt Hlu.
  assert (Hreset : forall d0 : record,
             d0 !! "base" = Some (VInt b) ->
             reset now IsCounter d0 = (inr tt, <["current" := VInt b]> d0)).
  { intros d0 Hb0. unfold reset, Trait___delattr__.
    change (default_of (default_keys (class_of CounterCls)) "current") with (@None pyval).
    cbv beta iota. erewrite (bind_eq (gets _)) by reflexivity.
    change (_DA now CounterCls "current") with CounterTrait_del_current.
    assert (CounterTrait_del_current d0 = (inr tt, <["current" := VInt b]> d0)) as H.
    { unfold CounterTrait_del_current, CounterTrait_base. mrun. reflexivity. }
    destruct (has_key "current" d0); unfold try_attribute_error; now rewrite H. }
  split; [now apply Hreset|]. split.
  - rewrite Hreset by now simplify_map_eq. now rewrite insert_insert_eq.
  - rewrite (counter_idle_value_eq later _ b m r lo hi rt (Some b));
      first [ reflexivity | now simplify_map_eq ].
Qed.

Lemma counter_reset_to_base_witness :
  reset 1000 IsCounter (added 1000 "counter" modded_fields)
  = (inr tt, <["current" := VInt 50]> (added 1000 "counter" modded_fields)).
Proof.
  apply (counter_reset_to_base 1000 1000 (added 1000 "counter" modded_fields)
           50 10 0 (Some 0) (Some 100) None); reflexivity.
Defined.

Lemma starts_true_iff (r : Z) (lu lo hi rt : option Z) (v : Z) :
  starts r lu lo hi rt v = true <->
  r <> 0 /\ lu = None /\
  (forall l, lo = Some l -> l < v) /\ (forall h, hi = Some h -> v < h) /\
  (forall t, rt = Some t -> ~ (r < 0 /\ v <= t) /\ ~ (0 < r /\ t <= v)).
Proof.
  unfold starts, within, below, above, passed.
  rewrite !andb_true_iff, !negb_true_iff, orb_false_iff.
  split.
  - intros [[[Hr Hlu] [Hlo Hhi]] Hrt].
    split; [now apply Z.eqb_neq|]. split; [now destruct lu|].
    split; [intros l ->; lia|]. split; [intros h ->; lia|].
    intros t ->. apply orb_false_iff in Hrt as [H1 H2].
    apply andb_false_iff in H1, H2. lia.
  - intros (Hr & Hlu & Hlo & Hhi & Hrt).
    split; [split; [split|split]|].
    + now apply Z.eqb_neq.
    + now subst lu.
    + destruct lo as [l|]; [specialize (Hlo l eq_refl); lia|reflexivity].
    + destruct hi as [h|]; [specialize (Hhi h eq_refl); lia|reflexivity].
    + destruct rt as [t|]; [|reflexivity].
      destruct (Hrt t eq_refl) as [H1 H2].
      apply orb_false_iff. split; apply andb_false_iff; lia.
Qed.

(** X8. A write of a number to a Counter's [current] stores the number
    clamped and touches only [current] and [last_update]. It sets
    [last_update] to the clock reading exactly when the rate is not zero,
    the timer is off, the clamped number lies strictly inside the bounds
    that are set and has not reached the rate target in the direction of
    the rate; otherwise [last_update] is left as it is: a running timer is
    neither stopped nor restarted by the write. *)
Theorem counter_current_write_timer (now : Z) (d : record) (r v : Z)
    (lo hi rt lu : option Z) :
  d !! "rate" = Some (VInt r) ->
  d !! "min" = Some (bound lo) -> d !! "max" = Some (bound hi) ->
  d !! "ratetarget" = Some (bound rt) -> d !! "last_update" = Some (bound lu) ->
  exists d',
    Trait___setattr__ now CounterCls "current" (VInt v) d = (inr tt, d') /\
    d' !! "current" = Some (VInt (clamp lo hi v)) /\
    (forall key, key <> "current" -> key <> "last_update" -> d' !! key = d !! key) /\
    ((r <> 0 /\ lu = None /\
      (forall l, lo = Some l -> l < clamp lo hi v) /\
      (forall h, hi = Some h -> clamp lo hi v < h) /\
      (forall t, rt = Some t ->
                 ~ (r < 0 /\ clamp lo hi v <= t) /\ ~ (0 < r /\ t <= clamp lo hi v))) ->
     d' !! "last_update" = Some (VInt now)) /\
    ((r = 0 \/ lu <> None \/
      (exists l, lo = Some l /\ clamp lo hi v <= l) \/
      (exists h, hi = Some h /\ h <= clamp lo hi v) \/
      (exists t, rt = Some t /\
                 ((r < 0 /\ clamp lo hi v <= t) \/ (0 < r /\ t <= clamp lo hi v)))) ->
     d' !! "last_update" = Some (bound lu)).
Proof.
  intros Hr Hlo Hhi Hrt Hlu.
  change (Trait___setattr__ now CounterCls "current" (VInt v))
    with (CounterTrait_set_current now (VInt v)).
  rewrite (set_current_number d r lo hi rt lu Hr Hlo Hhi Hrt Hlu).
  set (c := clamp lo hi v).
  eexists. split; [reflexivity|]. split; [now rewrite lookup_insert_eq|].
  split.
  { intros key H1 H2. rewrite lookup_insert_ne by congruence.
    destruct (starts r lu lo hi rt c); [|reflexivity].
    now rewrite lookup_insert_ne by congruence. }
  split.
  - intros Hcond. apply starts_true_iff in Hcond. rewrite Hcond.
    now rewrite lookup_insert_ne, lookup_insert_eq by discriminate.
  - intros Hcond.
    assert (starts r lu lo hi rt c = false) as ->.
    { apply not_true_iff_false. intros Hs. apply starts_true_iff in Hs.
      destruct Hs as (H1 & H2 & H3 & H4 & H5).
      destruct Hcond as [H|[H|[(l & -> & H)|[(h & -> & H)|(t & -> & H)]]]].
      - contradiction.
      - contradiction.
      - specialize (H3 l eq_refl). lia.
      - specialize (H4 h eq_refl). lia.
      - destruct (H5 t eq_refl). tauto. }
    now rewrite lookup_insert_ne by discriminate.
Qed.

Lemma counter_current_write_timer_witness :
  exists d',
    Trait___setattr__ 1000 CounterCls "current" (VInt 40)
      (<["rate" := VInt 1]> (added 900 "counter" documented_fields)) = (inr tt, d') /\
    d' !! "current" = Some (VInt (clamp (Some 0) (Some 100) 40)) /\
    d' !! "last_update" = Some (VInt 1000).
Proof.
  destruct (counter_current_write_timer 1000
              (<["rate" := VInt 1]> (added 900 "counter" documented_fields))
              1 40 (Some 0) (Some 100) None None)
    as (d' & H1 & H2 & _ & H3 & _); try reflexivity.
  exists d'. split; [exact H1|]. split; [exact H2|]. apply H3.
  split; [lia|]. split; [reflexivity|].
  split; [intros l Hl; injection Hl as <-; vm_compute; reflexivity|].
  split; [intros h Hh; injection Hh as <-; vm_compute; reflexivity|].
  intros t Ht. discriminate.
Defined.

(** ** Gauges: boundaries, writes and reads *)

Section GaugeTimer.
Variable d : record.
Variables (b m r : Z) (lo rt lu : option Z).
Hypothesis Hbase : d !! "base" = Some (VInt b).
Hypothesis Hmod : d !! "mod" = Some (VInt m).
Hypothesis Hmin : d !! "min" = Some (bound lo).
Hypothesis Hrate : d !! "rate" = Some (VInt r).
Hypothesis Hrt : d !! "ratetarget" = Some (bound rt).
Hypothesis Hlu : d !! "last_update" = Some (bound lu).

Lemma within_boundaries_gauge_eq (v : Z) :
  _within_boundaries IsGauge (VInt v) d
  = (inr (within (Some (default 0 lo)) (Some (b + m)) v), d).
Proof using Hbase Hmod Hmin.
  unfold _within_boundaries, self_min, self_max, within, below, above.
  erewrite (bind_eq GaugeTrait_min) by exact (gauge_min_eq d lo Hmin).
  mrun. destruct (v <=? default 0 lo); mrun; [reflexivity|].
  erewrite (bind_eq GaugeTrait_max) by exact (gauge_max_eq d b m Hbase Hmod).
  mrun. reflexivity.
Qed.

Lemma check_and_start_timer_gauge_eq (now v : Z) :
  _check_and_start_timer now IsGauge (VInt v) d =
  (inr (VInt v),
   if starts r lu (Some (default 0 lo)) (Some (b + m)) rt v
   then <["last_update" := VInt now]> d else d).
Proof using All.
  pose proof within_boundaries_gauge_eq as Hwithin.
  unfold _check_and_start_timer, self_rate, starts. mrun.
  destruct (r =? 0); mrun; [reflexivity|].
  destruct lu as [t|]; mrun; [reflexivity|].
  erewrite (bind_eq (_within_boundaries _ _)) by apply Hwithin.
  destruct (within (Some (default 0 lo)) (Some (b + m)) v); mrun; [|reflexivity].
  erewrite (bind_eq (_passed_ratetarget _))
    by exact (passed_ratetarget_eq d r rt Hrate Hrt v).
  mrun. destruct (passed rt r v); reflexivity.
Qed.

Lemma update_current_gauge_eq (now c : Z) :
  GaugeTrait__update_current now (VInt c) d =
  (inr (VInt (fst (gauge_step now r b m (default 0 lo) lu rt c))),
   gauge_after_read d now r b m (default 0 lo) lu rt c).
Proof using All.
  pose proof (stop_timer_eq d r lu Hrate Hlu) as Hstop.
  pose proof (timer_active_eq d r lu Hlu) as Hactive.
  unfold GaugeTrait__update_current, self_rate, gauge_after_read. mstep.
  erewrite (bind_eq (timer_active _)) by apply Hactive.
  unfold gauge_step.
  destruct lu as [t0|]; [|destruct (r =? 0); reflexivity].
  destruct (r =? 0) eqn:Er; [reflexivity|]. mrun.
  erewrite (bind_eq (_passed_ratetarget _))
    by exact (passed_ratetarget_eq d r rt Hrate Hrt _).
  destruct (passed rt r (c + r * (now - t0))) eqn:Ep.
  - destruct rt as [t|]; [|discriminate]. mrun.
    erewrite (bind_eq _stop_timer) by apply Hstop.
    mrun. reflexivity.
  - mrun.
    erewrite (bind_eq (_within_boundaries _ _)) by apply within_boundaries_gauge_eq.
    destruct (within (Some (default 0 lo)) (Some (b + m)) (c + r * (now - t0))); mrun.
    + reflexivity.
    + erewrite (bind_eq (GaugeTrait__enforce_boundaries _))
        by exact (enforce_boundaries_gauge_eq d b m lo Hbase Hmod Hmin _).
      rewrite bind_assoc. erewrite (bind_eq _stop_timer) by apply Hstop.
      mrun. reflexivity.
Qed.

Lemma gauge_value_eq (now : Z) (cur : option Z) :
  d !! "current" = VInt <$> cur ->
  GaugeTrait_value now d =
  (inr (VInt (fst (gauge_step now r b m (default 0 lo) lu rt
                     (gauge_clamp (default 0 lo) (m + b) (default (b + m) cur))))),
   gauge_after_read d now r b m (default 0 lo) lu rt
     (gauge_clamp (default 0 lo) (m + b) (default (b + m) cur))).
Proof using All.
  intros Hcur.
  unfold GaugeTrait_value, GaugeTrait_current, GaugeTrait_base, GaugeTrait_mod. mrun.
  rewrite Hcur.
  replace (default (VInt (b + m)) (VInt <$> cur)) with (VInt (default (b + m) cur))
    by (destruct cur; reflexivity).
  erewrite (bind_eq (GaugeTrait__enforce_boundaries _))
    by exact (enforce_boundaries_gauge_eq d b m lo Hbase Hmod Hmin _).
  apply update_current_gauge_eq.
Qed.
End GaugeTimer.

Lemma gauge_clamp_between (lo top v : Z) :
  lo <= top -> lo <= gauge_clamp lo top v <= top.
Proof.
  intros H. unfold gauge_clamp. destruct (Z.leb_spec v lo); lia.
Qed.

Lemma gauge_clamp_inside (lo top v : Z) :
  lo <= v <= top -> gauge_clamp lo top v = v.
Proof.
  intros H. unfold gauge_clamp. destruct (Z.leb_spec v lo); lia.
Qed.

Lemma gauge_step_between (now r b m lo : Z) (lu rt : option Z) (c : Z) :
  lo <= b + m -> lo <= c <= b + m ->
  (forall t, rt = Some t -> lo <= t <= b + m) ->
  lo <= fst (gauge_step now r b m lo lu rt c) <= b + m.
Proof.
  intros Hle Hc Hrt. unfold gauge_step.
  destruct lu as [t0|]; [|exact Hc].
  destruct (r =? 0); [exact Hc|].
  destruct (passed rt r (c + r * (now - t0))) eqn:Ep.
  - destruct rt as [t|]; [|discriminate]. simpl. now apply Hrt.
  - destruct (within (Some lo) (Some (b + m)) (c + r * (now - t0))) eqn:Ew;
      cbn [negb fst].
    + unfold within, below, above in Ew.
      apply negb_true_iff, orb_false_iff in Ew as [E1 E2]. lia.
    + replace (m + b) with (b + m) by lia. now apply gauge_clamp_between.
Qed.

(** X9. On a Gauge, a write of a number to [base], [mod] or [min] succeeds
    and leaves the floor at or below the ceiling: afterwards the [min] getter
    returns at most what the [max] getter ([base + mod]) returns, whatever
    the record held before. The field written is the only one changed. *)
Theorem gauge_setters_keep_floor (now : Z) (d : record) (key : string) (b m v : Z)
    (lo : option Z) :
  d !! "base" = Some (VInt b) -> d !! "mod" = Some (VInt m) ->
  d !! "min" = Some (bound lo) ->
  key = "base" \/ key = "mod" \/ key = "min" ->
  exists d' floor ceiling,
    Trait___setattr__ now GaugeCls key (VInt v) d = (inr tt, d') /\
    (forall other, other <> key -> d' !! other = d !! other) /\
    GaugeTrait_min d' = (inr (VInt floor), d') /\
    GaugeTrait_max d' = (inr (VInt ceiling), d') /\
    floor <= ceiling.
Proof.
  intros Hb Hm Hlo [-> | [-> | ->]].
  - change (Trait___setattr__ now GaugeCls "base" (VInt v))
      with (GaugeTrait_set_base (VInt v)).
    unfold GaugeTrait_set_base, GaugeTrait_mod. mrun.
    erewrite (bind_eq GaugeTrait_min) by exact (gauge_min_eq d lo Hlo).
    mrun. destruct (Z.ltb_spec (v + m) (default 0 lo)); mrun.
    + erewrite (bind_eq GaugeTrait_min) by exact (gauge_min_eq d lo Hlo).
      mrun. eexists. exists (default 0 lo), (default 0 lo - m + m).
      split; [reflexivity|].
      split; [intros other Ho; now rewrite lookup_insert_ne by congruence|].
      split; [apply gauge_min_eq; now simplify_map_eq|].
      split; [apply gauge_max_eq; now simplify_map_eq|lia].
    + eexists. exists (default 0 lo), (v + m).
      split; [reflexivity|].
      split; [intros other Ho; now rewrite lookup_insert_ne by congruence|].
      split; [apply gauge_min_eq; now simplify_map_eq|].
      split; [apply gauge_max_eq; now simplify_map_eq|lia].
  - change (Trait___setattr__ now GaugeCls "mod" (VInt v))
      with (GaugeTrait_set_mod (VInt v)).
    unfold GaugeTrait_set_mod, GaugeTrait_base. mrun.
    erewrite (bind_eq GaugeTrait_min) by exact (gauge_min_eq d lo Hlo).
    mrun. destruct (Z.ltb_spec (v + b) (default 0 lo)); mrun.
    + erewrite (bind_eq GaugeTrait_min) by exact (gauge_min_eq d lo Hlo).
      mrun. eexists. exists (default 0 lo), (b + (default 0 lo - b)).
      split; [reflexivity|].
      split; [intros other Ho; now rewrite lookup_insert_ne by congruence|].
      split; [apply gauge_min_eq; now simplify_map_eq|].
      split; [apply gauge_max_eq; now simplify_map_eq|lia].
    + eexists. exists (default 0 lo), (b + v).
      split; [reflexivity|].
      split; [intros other Ho; now rewrite lookup_insert_ne by congruence|].
      split; [apply gauge_min_eq; now simplify_map_eq|].
      split; [apply gauge_max_eq; now simplify_map_eq|lia].
  - change (Trait___setattr__ now GaugeCls "min" (VInt v))
      with (GaugeTrait_set_min (VInt v)).
    unfold GaugeTrait_set_min, GaugeTrait_base, GaugeTrait_mod. mrun.
    eexists. exists (if b + m <? v then b + m else v), (b + m).
    split; [reflexivity|].
    split; [intros other Ho; now rewrite lookup_insert_ne by congruence|].
    split.
    { apply (gauge_min_eq _ (Some (if b + m <? v then b + m else v))).
      rewrite lookup_insert_eq. now destruct (b + m <? v). }
    split; [apply gauge_max_eq; now simplify_map_eq|].
    destruct (Z.ltb_spec (b + m) v); lia.
Qed.

Lemma gauge_setters_keep_floor_witness :
  exists d' floor ceiling,
    Trait___setattr__ 1000 GaugeCls "base" (VInt (-20)) (plain_gauge 100 0)
    = (inr tt, d') /\
    (forall other, other <> "base" -> d' !! other = plain_gauge 100 0 !! other) /\
    GaugeTrait_min d' = (inr (VInt floor), d') /\
    GaugeTrait_max d' = (inr (VInt ceiling), d') /\
    floor <= ceiling.
Proof.
  apply (gauge_setters_keep_floor 1000 (plain_gauge 100 0) "base" 100 0 (-20) (Some 0));
    try reflexivity.
  left. reflexivity.
Defined.

(** X10. A write of a number to a Gauge's [current] stores the number
    floored at [min] and capped at [base + mod], so the stored [current]
    lies between the two (the floor is assumed not to exceed the ceiling);
    a number already in that range is stored as written. *)
Theorem gauge_current_write_clamped (now : Z) (d : record) (b m r v : Z)
    (lo rt lu : option Z) :
  d !! "base" = Some (VInt b) -> d !! "mod" = Some (VInt m) ->
  d !! "min" = Some (bound lo) -> d !! "rate" = Some (VInt r) ->
  d !! "ratetarget" = Some (bound rt) -> d !! "last_update" = Some (bound lu) ->
  default 0 lo <= b + m ->
  exists d' c,
    Trait___setattr__ now GaugeCls "current" (VInt v) d = (inr tt, d') /\
    d' !! "current" = Some (VInt c) /\
    default 0 lo <= c <= b + m /\
    (default 0 lo <= v <= b + m -> c = v) /\
    (v <= default 0 lo -> c = default 0 lo) /\
    (b + m <= v -> c = b + m).
Proof.
  intros Hb Hm Hlo Hr Hrt Hlu Hle.
  change (Trait___setattr__ now GaugeCls "current" (VInt v))
    with (GaugeTrait_set_current now (VInt v)).
  unfold GaugeTrait_set_current. msimpl.
  erewrite (bind_eq (GaugeTrait__enforce_boundaries _))
    by exact (enforce_boundaries_gauge_eq d b m lo Hb Hm Hlo v).
  erewrite (bind_eq (_check_and_start_timer _ _ _))
    by exact (check_and_start_timer_gauge_eq d b m r lo rt lu
                Hb Hm Hlo Hr Hrt Hlu now _).
  replace (m + b) with (b + m) by lia.
  eexists. exists (gauge_clamp (default 0 lo) (b + m) v).
  split; [reflexivity|]. split; [now rewrite lookup_insert_eq|].
  split; [now apply gauge_clamp_between|].
  unfold gauge_clamp.
  split; [|split]; intros H; destruct (Z.leb_spec v (default 0 lo)); lia.
Qed.

Lemma gauge_current_write_clamped_witness :
  exists d' c,
    Trait___setattr__ 1000 GaugeCls "current" (VInt (-100)) (plain_gauge 100 0)
    = (inr tt, d') /\
    d' !! "current" = Some (VInt c) /\ default 0 (Some 0) <= c <= 100 + 0.
Proof.
  destruct (gauge_current_write_clamped 1000 (plain_gauge 100 0) 100 0 0 (-100)
              (Some 0) None None) as (d' & c & H1 & H2 & H3 & _);
    try reflexivity; [simpl; lia|].
  exists d', c. split; [exact H1|]. split; [exact H2|exact H3].
Defined.

(** X11. On a Gauge whose floor does not exceed its ceiling and whose rate
    target, if set, lies between the two, every read of [value] succeeds and
    returns a number between [min] and [base + mod], whatever the stored
    [current], the rate and the clock. *)
Theorem gauge_value_within_bounds (now : Z) (d : record) (b m r : Z)
    (lo rt lu cur : option Z) :
  d !! "base" = Some (VInt b) -> d !! "mod" = Some (VInt m) ->
  d !! "min" = Some (bound lo) -> d !! "rate" = Some (VInt r) ->
  d !! "ratetarget" = Some (bound rt) -> d !! "last_update" = Some (bound lu) ->
  d !! "current" = VInt <$> cur ->
  default 0 lo <= b + m ->
  (forall t, rt = Some t -> default 0 lo <= t <= b + m) ->
  exists v d',
    GaugeTrait_value now d = (inr (VInt v), d') /\ default 0 lo <= v <= b + m.
Proof.
  intros Hb Hm Hlo Hr Hrt Hlu Hcur Hle Htarget.
  rewrite (gauge_value_eq d b m r lo rt lu Hb Hm Hlo Hr Hrt Hlu now cur Hcur).
  eexists. eexists. split; [reflexivity|].
  apply gauge_step_between; try assumption.
  replace (m + b) with (b + m) by lia. now apply gauge_clamp_between.
Qed.

Lemma gauge_value_within_bounds_witness :
  exists v d',
    GaugeTrait_value 1060 (added 1000 "gauge" (<["rate" := VInt (-1)]> (gauge_fields 100 0)))
    = (inr (VInt v), d') /\ default 0 (Some 0) <= v <= 100 + 0.
Proof.
  apply (gauge_value_within_bounds 1060
           (added 1000 "gauge" (<["rate" := VInt (-1)]> (gauge_fields 100 0)))
           100 0 (-1) (Some 0) None (Some 1000) None); try reflexivity.
  - simpl. lia.
  - intros t Ht. discriminate.
Defined.

Lemma gauge_step_again (now r b m lo : Z) (lu rt : option Z) (c : Z) :
  negb (r =? 0) && is_set lu = true ->
  gauge_step now r b m lo (snd (gauge_step now r b m lo lu rt c)) rt
    (fst (gauge_step now r b m lo lu rt c))
  = gauge_step now r b m lo lu rt c.
Proof.
  intros Hact. apply andb_true_iff in Hact as [Hr Hlu].
  destruct lu as [t0|]; [|discriminate]. apply negb_true_iff in Hr.
  destruct (gauge_step now r b m lo (Some t0) rt c) as [c1 lu1] eqn:Hs.
  unfold gauge_step in Hs. rewrite Hr in Hs. cbn [fst snd].
  destruct (passed rt r (c + r * (now - t0))) eqn:Ep.
  { injection Hs as <- <-. reflexivity. }
  destruct (within (Some lo) (Some (b + m)) (c + r * (now - t0))) eqn:Ew;
    cbn [negb] in Hs.
  - injection Hs as <- <-. unfold gauge_step. rewrite Hr.
    replace (c + r * (now - t0) + r * (now - now)) with (c + r * (now - t0)) by lia.
    now rewrite Ep, Ew.
  - injection Hs as <- <-. reflexivity.
Qed.

(** X12. On a Gauge whose floor does not exceed its ceiling and whose rate
    target, if set, lies between the two, reading [value] again at the same
    clock reading returns the same value and leaves the same record. *)
Theorem gauge_value_reread (now : Z) (d : record) (b m r : Z)
    (lo rt lu cur : option Z) :
  d !! "base" = Some (VInt b) -> d !! "mod" = Some (VInt m) ->
  d !! "min" = Some (bound lo) -> d !! "rate" = Some (VInt r) ->
  d !! "ratetarget" = Some (bound rt) -> d !! "last_update" = Some (bound lu) ->
  d !! "current" = VInt <$> cur ->
  default 0 lo <= b + m ->
  (forall t, rt = Some t -> default 0 lo <= t <= b + m) ->
  GaugeTrait_value now (snd (GaugeTrait_value now d)) = GaugeTrait_value now d.
Proof.
  intros Hb Hm Hlo Hr Hrt Hlu Hcur Hle Htarget.
  rewrite (gauge_value_eq d b m r lo rt lu Hb Hm Hlo Hr Hrt Hlu now cur Hcur).
  cbn [snd]. unfold gauge_after_read.
  set (c := gauge_clamp (default 0 lo) (m + b) (default (b + m) cur)).
  assert (Hc : default 0 lo <= c <= b + m).
  { subst c. replace (m + b) with (b + m) by lia. now apply gauge_clamp_between. }
  destruct (negb (r =? 0) && is_set lu) eqn:Hact.
  - set (s := gauge_step now r b m (default 0 lo) lu rt c).
    assert (Hs : default 0 lo <= fst s <= b + m)
      by now apply gauge_step_between.
    rewrite (gauge_value_eq _ b m r lo rt (snd s)) with (cur := Some (fst s));
      try (now simplify_map_eq).
    cbn [default from_option]. unfold id.
    replace (m + b) with (b + m) by lia.
    rewrite gauge_clamp_inside by exact Hs.
    unfold gauge_after_read. subst s.
    rewrite gauge_step_again by exact Hact.
    set (s := gauge_step now r b m (default 0 lo) lu rt c).
    f_equal.
    destruct (negb (r =? 0) && is_set (snd s)); [|reflexivity].
    apply insert_pair_again.
  - rewrite (gauge_value_eq d b m r lo rt lu Hb Hm Hlo Hr Hrt Hlu now cur Hcur).
    unfold gauge_after_read. fold c. now rewrite Hact.
Qed.

Lemma gauge_value_reread_witness :
  GaugeTrait_value 1060
    (snd (GaugeTrait_value 1060
            (added 1000 "gauge" (<["rate" := VInt (-1)]> (gauge_fields 100 0)))))
  = GaugeTrait_value 1060
      (added 1000 "gauge" (<["rate" := VInt (-1)]> (gauge_fields 100 0))).
Proof.
  apply (gauge_value_reread 1060
           (added 1000 "gauge" (<["rate" := VInt (-1)]> (gauge_fields 100 0)))
           100 0 (-1) (Some 0) None (Some 1000) None); try reflexivity.
  - simpl. lia.
  - intros t Ht. discriminate.
Defined.

(** ** Descriptions *)

Lemma desc_loop_found (v : Z) (highest : pyval) (l1 l2 : list (Z * string))
    (bnd : Z) (txt : string) :
  Forall (fun e => fst e < v) l1 -> v <= bnd ->
  desc_loop (VInt v) highest
    (map (fun e => (VInt (fst e), VStr (snd e))) (l1 ++ (bnd, txt) :: l2)%list)
  = inr (VStr txt).
Proof.
  intros Hl1 Hv. revert highest.
  induction Hl1 as [|[b0 t0] rest Hlt _ IH]; intros highest; simpl.
  - destruct (Z.leb_spec v bnd); [reflexivity | lia].
  - simpl in Hlt. destruct (Z.leb_spec v b0); [lia|]. apply IH.
Qed.

Lemma last_cons_default {A} (x : A) (l : list A) (d d' : A) :
  List.last (x :: l) d = List.last (x :: l) d'.
Proof.
  revert x. induction l as [|y rest IH]; intros x; [reflexivity|].
  change (List.last (y :: rest) d = List.last (y :: rest) d'). apply IH.
Qed.

Lemma desc_loop_above (v : Z) (highest : string) (l : list (Z * string)) :
  Forall (fun e => fst e < v) l ->
  desc_loop (VInt v) (VStr highest) (map (fun e => (VInt (fst e), VStr (snd e))) l)
  = inr (VStr (List.last (map snd l) highest)).
Proof.
  intros Hl. revert highest.
  induction Hl as [|[b0 t0] rest Hlt _ IH]; intros highest; simpl; [reflexivity|].
  simpl in Hlt. destruct (Z.leb_spec v b0); [lia|]. rewrite IH.
  destruct rest as [|p rest]; [reflexivity|].
  f_equal. f_equal. cbn [map]. apply last_cons_default.
Qed.

(** X13. [desc()] on a Counter. Without [descs] it returns the empty string
    and reads nothing else. With a [descs] dict of numeric bounds it reads
    [value] once (with the effect of that read on the timer) and returns the
    text of the first entry whose bound is at least the value; when the
    value exceeds every bound it returns the text of the last entry, and the
    empty string for an empty dict. *)
Theorem counter_desc (now : Z) (d : record) :
  (d !! "descs" = Some VNone ->
   desc now IsCounter d = (inr (VStr EmptyString), d))
  /\
  (forall (b m r : Z) (lo hi rt lu cur : option Z) (l : list (Z * string)),
      d !! "base" = Some (VInt b) -> d !! "mod" = Some (VInt m) ->
      d !! "rate" = Some (VInt r) ->
      d !! "min" = Some (bound lo) -> d !! "max" = Some (bound hi) ->
      d !! "ratetarget" = Some (bound rt) -> d !! "last_update" = Some (bound lu) ->
      d !! "current" = VInt <$> cur ->
      d !! "descs" = Some (descs_dict l) ->
      exists v d',
        CounterTrait_value now d = (inr (VInt v), d') /\
        (forall l1 bnd txt l2,
            l = (l1 ++ (bnd, txt) :: l2)%list -> Forall (fun e => fst e < v) l1 -> v <= bnd ->
            desc now IsCounter d = (inr (VStr txt), d')) /\
        (Forall (fun e => fst e < v) l ->
         desc now IsCounter d = (inr (VStr (List.last (map snd l) EmptyString)), d'))).
Proof.
  split.
  - intros Hd. unfold desc. mstep. reflexivity.
  - intros b m r lo hi rt lu cur l Hb Hm Hr Hlo Hhi Hrt Hlu Hcur Hd.
    pose proof (counter_value_eq d b m r lo hi rt lu cur
                  Hb Hm Hr Hlo Hhi Hrt Hlu Hcur now) as Hval.
    eexists. eexists. split; [exact Hval|].
    assert (Hdesc : forall res,
               desc_loop (VInt (clamp lo hi
                  (fst (counter_step now r m lu rt lo hi (default b cur)) + m)))
                 (VStr EmptyString)
                 (map (fun e => (VInt (fst e), VStr (snd e))) l) = inr res ->
               desc now IsCounter d
               = (inr res, counter_after_read d now r m lu rt lo hi (default b cur))).
    { intros res Hres. unfold desc. mstep. unfold descs_dict.
      unfold self_value. erewrite (bind_eq (CounterTrait_value _)) by exact Hval.
      unfold lift. now rewrite Hres. }
    split.
    + intros l1 bnd txt l2 -> Hl1 Hv. apply Hdesc. now apply desc_loop_found.
    + intros Hl. apply Hdesc. now apply desc_loop_above.
Qed.

Lemma counter_desc_witness :
  desc 1000 IsCounter
    (<["descs" := VNone]> (added 1000 "counter" documented_fields))
  = (inr (VStr EmptyString),
     <["descs" := VNone]> (added 1000 "counter" documented_fields)).
Proof.
  apply (proj1 (counter_desc 1000
                  (<["descs" := VNone]> (added 1000 "counter" documented_fields)))).
  reflexivity.
Defined.

(** The skill of the module documentation at value 11: the first bound that
    is at least 11 is 50, so the description is "trained" (the session in the
    module documentation shows "neophyte", the entry of the bound below). *)
Lemma counter_desc_example :
  fst (desc 1000 IsCounter
         (<["descs" := descs_dict skill_descs]>
            (added 1000 "counter" documented_fields)))
  = inr (VStr "trained").
Proof. vm_compute. reflexivity. Qed.

(** ** Validation *)

Lemma with_defaults_lookup (cls : trait_class) (d : record) (key : string) :
  with_defaults cls d !! key =
  match d !! key with
  | Some v => Some v
  | None => default_of (default_keys cls) key
  end.
Proof.
  unfold with_defaults. induction (default_keys cls) as [|[k v] rest IH]; simpl.
  - now destruct (d !! key).
  - unfold has_key at 1. destruct (d !! k) eqn:Hk; simpl.
    + rewrite IH. destruct (d !! key) eqn:Hkey; [reflexivity|].
      destruct (String.eqb_spec k key) as [->|]; [congruence|reflexivity].
    + destruct (String.eqb_spec k key) as [->|Hne].
      * rewrite lookup_insert_eq. now rewrite Hk.
      * rewrite lookup_insert_ne by exact Hne. exact IH.
Qed.

Lemma default_of_Some_in (keys : list (string * pyval)) (key : string) (v : pyval) :
  default_of keys key = Some v -> In (key, v) keys.
Proof.
  induction keys as [|[k w] rest IH]; simpl; [discriminate|].
  destruct (String.eqb_spec k key) as [->|]; [intros [= ->]; now left|].
  intros H. right. now apply IH.
Qed.

Lemma default_of_None_not_in (keys : list (string * pyval)) (key : string) (v : pyval) :
  default_of keys key = None -> ~ In (key, v) keys.
Proof.
  induction keys as [|[k w] rest IH]; simpl; [tauto|].
  destruct (String.eqb_spec k key) as [->|Hne]; [discriminate|].
  intros H [[= -> ->]|Hin]; [congruence|]. now apply (IH H).
Qed.

Lemma filter_nil_existsb {A} (f : A -> bool) (l : list A) :
  List.filter f l = [] -> existsb f l = false.
Proof.
  induction l as [|x rest IH]; [reflexivity|]. simpl.
  destruct (f x); [discriminate|]. exact IH.
Qed.

Lemma Trait_validate_input_ok (cls : trait_class) (d : record) :
  is_Some (d !! "name") -> is_Some (d !! "trait_type") ->
  missing_mandatory cls d = [] ->
  allow_extra_properties cls = true ->
  Trait_validate_input cls d = (inr tt, with_defaults cls d).
Proof.
  intros [n Hn] [t Ht] Hmiss Hextra.
  unfold Trait_validate_input. erewrite (bind_eq (gets _)) by reflexivity.
  assert (has_key "name" d = true) as Hname by (unfold has_key; now rewrite Hn).
  assert (has_key "trait_type" d = true) as Htype by (unfold has_key; now rewrite Ht).
  cbv beta. cbn [List.filter]. rewrite Hname, Htype. cbn [negb].
  unfold missing_mandatory in Hmiss. apply map_eq_nil in Hmiss.
  rewrite (filter_nil_existsb _ _ Hmiss).
  erewrite (bind_eq (modify _)) by reflexivity.
  rewrite Hextra. reflexivity.
Qed.

Lemma missing_mandatory_with_defaults (cls : trait_class) (d : record) :
  missing_mandatory cls (with_defaults cls d) = [].
Proof.
  unfold missing_mandatory.
  assert (List.filter (fun kv => negb (has_key (fst kv) (with_defaults cls d)))
            (default_keys cls) = []) as ->; [|reflexivity].
  assert (H : forall kv, In kv (default_keys cls) ->
                         negb (has_key (fst kv) (with_defaults cls d)) = false).
  { intros [k v] Hin. apply negb_false_iff. unfold has_key. simpl.
    rewrite with_defaults_lookup. destruct (d !! k); [reflexivity|].
    destruct (default_of (default_keys cls) k) eqn:E; [reflexivity|].
    exfalso. exact (default_of_None_not_in _ _ v E Hin). }
  induction (default_keys cls) as [|kv rest IH]; [reflexivity|].
  simpl. rewrite (H kv) by now left.
  apply IH. intros kv' Hin. apply H. now right.
Qed.

Lemma with_defaults_again (cls : trait_class) (d : record) :
  with_defaults cls (with_defaults cls d) = with_defaults cls d.
Proof.
  apply map_eq. intros key. rewrite with_defaults_lookup.
  destruct (with_defaults cls d !! key) eqn:E; [reflexivity|].
  rewrite with_defaults_lookup in E. destruct (d !! key); [discriminate|exact E].
Qed.

(** X14. [Trait.validate_input] on a dict that has ["name"] and
    ["trait_type"] and lacks no required key of a class that allows extra
    properties: it succeeds, keeps every entry of the dict, gives every
    other key of the class its declared default, adds nothing else, and
    validating the result again changes nothing. *)
Theorem validate_input_completes (cls : trait_class) (d : record) :
  is_Some (d !! "name") -> is_Some (d !! "trait_type") ->
  missing_mandatory cls d = [] ->
  allow_extra_properties cls = true ->
  exists d',
    Trait_validate_input cls d = (inr tt, d') /\
    (forall key v, d !! key = Some v -> d' !! key = Some v) /\
    (forall key, d !! key = None -> d' !! key = default_of (default_keys cls) key) /\
    Trait_validate_input cls d' = (inr tt, d').
Proof.
  intros Hn Ht Hmiss Hextra. exists (with_defaults cls d).
  split; [now apply Trait_validate_input_ok|].
  split; [intros key v H; now rewrite with_defaults_lookup, H|].
  split; [intros key H; now rewrite with_defaults_lookup, H|].
  rewrite Trait_validate_input_ok.
  - now rewrite with_defaults_again.
  - rewrite with_defaults_lookup. destruct Hn as [n ->]. eauto.
  - rewrite with_defaults_lookup. destruct Ht as [t ->]. eauto.
  - apply missing_mandatory_with_defaults.
  - exact Hextra.
Qed.

Lemma validate_input_completes_witness :
  exists d',
    Trait_validate_input StaticTrait_class
      (merged_properties "str" VNone "static" (<["base" := VInt 10]> ∅)) = (inr tt, d') /\
    d' !! "mod" = default_of (default_keys StaticTrait_class) "mod".
Proof.
  destruct (validate_input_completes StaticTrait_class
              (merged_properties "str" VNone "static" (<["base" := VInt 10]> ∅)))
    as (d' & H1 & _ & H3 & _).
  - vm_compute. eauto.
  - vm_compute. eauto.
  - reflexivity.
  - reflexivity.
  - exists d'. split; [exact H1|]. apply H3. reflexivity.
Defined.

(** ** The handler: wrappers, removal, clearing *)

Lemma with_defaults_complete (cls : trait_class) (d : record) :
  (forall kv, In kv (default_keys cls) -> is_Some (d !! fst kv)) ->
  with_defaults cls d = d /\ missing_mandatory cls d = [].
Proof.
  intros Hall.
  assert (List.filter (fun kv => negb (has_key (fst kv) d)) (default_keys cls) = [])
    as Hnone.
  { induction (default_keys cls) as [|kv rest IH]; [reflexivity|].
    simpl. destruct (Hall kv (or_introl eq_refl)) as [v Hv].
    unfold has_key at 1. rewrite Hv. simpl.
    apply IH. intros kv' Hin. apply Hall. now right. }
  unfold with_defaults, missing_mandatory. now rewrite Hnone.
Qed.

Lemma validate_input_complete (now : Z) (cls : trait_class) (ttype : string)
    (d : record) :
  allow_extra_properties cls = true ->
  complete cls ttype d ->
  validate_input now cls d = (inr tt, revalidated now cls d).
Proof.
  intros Hextra (Hname & Htype & Hall & Hcounter).
  destruct (with_defaults_complete cls d Hall) as [Hsame Hmiss].
  assert (Trait_validate_input cls d = (inr tt, d)) as Hbase.
  { rewrite Trait_validate_input_ok; eauto. now rewrite Hsame. }
  unfold validate_input, revalidated.
  destruct (counter_validation cls); [|exact Hbase].
  destruct (Hcounter eq_refl) as (descs & rate & Hd & Hok & Hr).
  unfold CounterTrait_validate_input.
  erewrite (bind_eq (Trait_validate_input _)) by exact Hbase.
  mstep.
  assert ((match descs with
           | VDict items =>
             if existsb (fun kv => negb (desc_entry_ok kv)) items
             then raise (TraitException DescsMalformed) else ret tt
           | _ => ret tt
           end) d = (inr tt, d)) as Hcheck.
  { destruct descs; try reflexivity. simpl in Hok.
    apply negb_true_iff in Hok. now rewrite Hok. }
  erewrite (bind_eq _ _ d) by exact Hcheck.
  mstep. rewrite Hr. cbn [default from_option]. unfold id.
  destruct (ne_zero rate); reflexivity.
Qed.

Lemma revalidated_complete (now : Z) (cls : trait_class) (ttype : string) (d : record) :
  complete cls ttype d -> complete cls ttype (revalidated now cls d).
Proof.
  intros Hcomplete. unfold revalidated.
  destruct (counter_validation cls) eqn:Hc; [|exact Hcomplete].
  destruct Hcomplete as (Hname & Htype & Hall & Hcounter).
  rewrite Hc in Hcounter.
  split; [|split; [|split]].
  - rewrite lookup_insert_ne by discriminate. exact Hname.
  - rewrite lookup_insert_ne by discriminate. exact Htype.
  - intros kv Hin. rewrite lookup_insert. case_decide; [eauto|now apply Hall].
  - intros _. destruct (Hcounter eq_refl) as (descs & rate & Hd & Hok & Hr).
    exists descs, rate. now rewrite !lookup_insert_ne by discriminate.
Qed.

Lemma get_cache_miss (now : Z) (classes : registry) (h : handler)
    (key ttype : string) (cls : trait_class) (d : record) :
  classes !! ttype = Some cls ->
  allow_extra_properties cls = true ->
  trait_data h !! key = Some d ->
  _cache h !! key = None ->
  complete cls ttype d ->
  get now classes key h =
  (inr (Some cls),
   {| trait_data := <[key := revalidated now cls d]> (trait_data h);
      _cache := <[key := cls]> (_cache h) |}).
Proof.
  intros Hcls Hextra Hd Hcache Hcomplete.
  pose proof Hcomplete as (_ & Htype & _).
  unfold get. rewrite Hcache, Hd, Htype. cbn [_get_trait_class]. rewrite Hcls.
  now rewrite (validate_input_complete now cls ttype d Hextra Hcomplete).
Qed.

(** X15. [get] on a stored, complete record that has no cached wrapper
    builds the wrapper of the record's class and caches it. Building it
    validates the stored record in place: for a class with the Counter
    validation this sets [last_update] to the clock reading when [rate] is
    not zero and to [None] otherwise, whatever [last_update] held, so a
    stopped or running timer starts afresh; nothing else changes. A second
    [get] returns the cached wrapper and leaves the handler as it is. *)
Theorem get_builds_wrapper (now later : Z) (classes : registry) (h : handler)
    (key ttype : string) (cls : trait_class) (d : record) :
  classes !! ttype = Some cls ->
  allow_extra_properties cls = true ->
  trait_data h !! key = Some d ->
  _cache h !! key = None ->
  complete cls ttype d ->
  exists h',
    get now classes key h = (inr (Some cls), h') /\
    trait_data h' !! key = Some (revalidated now cls d) /\
    _cache h' !! key = Some cls /\
    (forall other, other <> key ->
                   trait_data h' !! other = trait_data h !! other /\
                   _cache h' !! other = _cache h !! other) /\
    get later classes key h' = (inr (Some cls), h').
Proof.
  intros Hcls Hextra Hd Hcache Hcomplete.
  rewrite (get_cache_miss now classes h key ttype cls d Hcls Hextra Hd Hcache Hcomplete).
  eexists. split; [reflexivity|]. cbn [trait_data _cache].
  split; [now rewrite lookup_insert_eq|].
  split; [now rewrite lookup_insert_eq|].
  split.
  - intros other Hne. now rewrite !lookup_insert_ne by congruence.
  - unfold get. cbn [_cache]. now rewrite lookup_insert_eq.
Qed.

Lemma get_builds_wrapper_witness :
  exists h',
    get 2000 _TRAIT_CLASSES "hp" handler_with_hp = (inr (Some GaugeTrait_class), h') /\
    trait_data h' !! "hp" = Some (revalidated 2000 GaugeTrait_class (plain_gauge 100 0)).
Proof.
  destruct (get_builds_wrapper 2000 2001 _TRAIT_CLASSES handler_with_hp "hp" "gauge"
              GaugeTrait_class (plain_gauge 100 0))
    as (h' & H1 & H2 & _); try reflexivity.
  - split; [vm_compute; eauto|]. split; [reflexivity|]. split.
    + assert (Forall (fun kv : string * pyval => is_Some (plain_gauge 100 0 !! fst kv))
                (default_keys GaugeTrait_class)) as Hkeys
        by (repeat constructor; vm_compute; eauto).
      intros kv Hin. exact (proj1 (List.Forall_forall _ _) Hkeys kv Hin).
    + intros _. exists VNone, (VInt 0). repeat split; reflexivity.
  - exists h'. split; [exact H1|exact H2].
Defined.

(** X16. [remove] of a stored key deletes the record and the cached wrapper
    and touches no other key; afterwards [get] finds nothing and a second
    [remove] raises the not-found exception, both leaving the handler as it
    is. *)
Theorem remove_then_absent (now : Z) (classes : registry) (h : handler) (key : string) :
  is_Some (trait_data h !! key) ->
  exists h',
    remove key h = (inr tt, h') /\
    trait_data h' !! key = None /\ _cache h' !! key = None /\
    (forall other, other <> key ->
                   trait_data h' !! other = trait_data h !! other /\
                   _cache h' !! other = _cache h !! other) /\
    get now classes key h' = (inr None, h') /\
    remove key h' = (inl (TraitException (TraitNotFound key)), h').
Proof.
  intros [d Hd]. unfold remove at 1. rewrite Hd. eexists. split; [reflexivity|].
  cbn [trait_data _cache].
  split; [apply lookup_delete_eq|]. split; [apply lookup_delete_eq|].
  split.
  - intros other Hne. now rewrite !lookup_delete_ne by congruence.
  - split.
    + unfold get. cbn [trait_data _cache]. now rewrite !lookup_delete_eq.
    + unfold remove. cbn [trait_data]. now rewrite lookup_delete_eq.
Qed.

Lemma remove_then_absent_witness :
  exists h',
    remove "hp" handler_with_hp = (inr tt, h') /\
    trait_data h' !! "hp" = None /\ _cache h' !! "hp" = None.
Proof.
  destruct (remove_then_absent 1000 _TRAIT_CLASSES handler_with_hp "hp")
    as (h' & H1 & H2 & H3 & _).
  - vm_compute. eauto.
  - exists h'. split; [exact H1|]. split; [exact H2|exact H3].
Defined.

Lemma Trait_validate_input_inv (cls : trait_class) (d d' : record) :
  allow_extra_properties cls = true ->
  Trait_validate_input cls d = (inr tt, d') ->
  is_Some (d !! "name") /\ is_Some (d !! "trait_type") /\
  missing_mandatory cls d = [] /\ d' = with_defaults cls d.
Proof.
  intros Hextra. unfold Trait_validate_input.
  erewrite (bind_eq (gets _)) by reflexivity. cbv beta. cbn [List.filter].
  destruct (has_key "name" d) eqn:Hn;
    [|destruct (has_key "trait_type" d); cbn [negb]; unfold raise; discriminate].
  destruct (has_key "trait_type" d) eqn:Ht; [|cbn [negb]; unfold raise; discriminate].
  cbn [negb].
  destruct (existsb (fun kv => is_mandatory (snd kv))
              (List.filter (fun kv => negb (has_key (fst kv) d)) (default_keys cls)))
    eqn:E; [unfold raise; discriminate|].
  unfold has_key in Hn, Ht.
  erewrite (bind_eq (modify _)) by reflexivity. rewrite Hextra. cbn [negb].
  intros [= <-].
  split; [destruct (d !! "name"); [eauto|discriminate]|].
  split; [destruct (d !! "trait_type"); [eauto|discriminate]|].
  split; [|reflexivity].
  unfold missing_mandatory. now rewrite (filter_none _ _ E).
Qed.

Lemma validate_input_success_complete (now : Z) (cls : trait_class) (ttype : string)
    (d rec : record) :
  allow_extra_properties cls = true ->
  d !! "trait_type" = Some (VStr ttype) ->
  validate_input now cls d = (inr tt, rec) ->
  complete cls ttype rec.
Proof.
  intros Hextra Htype. unfold validate_input, complete.
  assert (Hbase : forall d1, Trait_validate_input cls d = (inr tt, d1) ->
            is_Some (d1 !! "name") /\ d1 !! "trait_type" = Some (VStr ttype) /\
            (forall kv, In kv (default_keys cls) -> is_Some (d1 !! fst kv))).
  { intros d1 H. apply Trait_validate_input_inv in H as ([n Hn] & _ & _ & ->);
      [|exact Hextra].
    split; [rewrite with_defaults_lookup, Hn; eauto|].
    split; [now rewrite with_defaults_lookup, Htype|].
    intros [k v] Hin. simpl. rewrite with_defaults_lookup.
    destruct (d !! k); [eauto|].
    destruct (default_of (default_keys cls) k) eqn:E; [eauto|].
    exfalso. exact (default_of_None_not_in _ _ v E Hin). }
  destruct (counter_validation cls).
  - unfold CounterTrait_validate_input. unfold bind at 1.
    destruct (Trait_validate_input cls d) as [[e|[]] d1] eqn:H1; [discriminate|].
    destruct (Hbase d1 eq_refl) as (Hn & Ht & Hall).
    unfold bind at 1. unfold item at 1.
    destruct (d1 !! "descs") as [descs|] eqn:Hd; [|discriminate].
    unfold bind at 1.
    destruct (descs_accepted descs) eqn:Hok.
    + assert ((match descs with
               | VDict items =>
                 if existsb (fun kv => negb (desc_entry_ok kv)) items
                 then raise (TraitException DescsMalformed) else ret tt
               | _ => ret tt
               end) d1 = (inr tt, d1)) as ->.
      { destruct descs; try reflexivity. simpl in Hok.
        apply negb_true_iff in Hok. now rewrite Hok. }
      unfold bind, item. destruct (d1 !! "rate") as [rate|] eqn:Hr; [|discriminate].
      intros H.
      assert (exists x, rec = <["last_update" := x]> d1) as [x ->].
      { destruct (ne_zero rate); injection H as <-; eauto. }
      split; [rewrite lookup_insert_ne by discriminate; exact Hn|].
      split; [rewrite lookup_insert_ne by discriminate; exact Ht|].
      split.
      * intros kv Hin. rewrite lookup_insert. case_decide; [eauto|now apply Hall].
      * intros _. exists descs, rate.
        now rewrite !lookup_insert_ne by discriminate.
    + assert ((match descs with
               | VDict items =>
                 if existsb (fun kv => negb (desc_entry_ok kv)) items
                 then raise (TraitException DescsMalformed) else ret tt
               | _ => ret tt
               end) d1 = (inl (TraitException DescsMalformed), d1)) as ->.
      { destruct descs; try discriminate. simpl in Hok.
        apply negb_false_iff in Hok. now rewrite Hok. }
      discriminate.
  - intros H. destruct (Hbase rec H) as (Hn & Ht & Hall).
    split; [exact Hn|]. split; [exact Ht|]. split; [exact Hall|]. discriminate.
Qed.

(** X17. A successful [add] stores the validated field set under the key
    (replacing a record already there when forced) and touches no other
    record; [get] then builds a wrapper of the class named by [trait_type]
    around that record. The cache is assumed to hold wrappers of stored
    traits only. *)
Theorem add_then_get (now later : Z) (classes : registry) (h : handler)
    (key : string) (name : pyval) (ttype : string) (force : bool)
    (props rec : record) (cls : trait_class) :
  classes !! ttype = Some cls ->
  allow_extra_properties cls = true ->
  cache_consistent h ->
  force = true \/ trait_data h !! key = None ->
  validate_input now cls (merged_properties key name ttype props) = (inr tt, rec) ->
  exists h1 h2,
    add now classes key name ttype force props h = (inr tt, h1) /\
    trait_data h1 !! key = Some rec /\
    (forall other, other <> key -> trait_data h1 !! other = trait_data h !! other) /\
    get later classes key h1 = (inr (Some cls), h2) /\
    trait_data h2 !! key = Some (revalidated later cls rec).
Proof.
  intros Hcls Hextra Hcache Hforce Hval.
  assert (Hcomplete : complete cls ttype rec).
  { apply (validate_input_success_complete now cls ttype
             (merged_properties key name ttype props) rec Hextra); [|exact Hval].
    unfold merged_properties. now rewrite lookup_insert_eq. }
  assert (Hadd : add now classes key name ttype force props h
                 = (inr tt, {| trait_data := <[key := rec]> (trait_data (without key h));
                               _cache := _cache (without key h) |})).
  { unfold add, without.
    erewrite (bind_eq (gets _)) by reflexivity.
    destruct (trait_data h !! key) as [old|] eqn:Hold.
    - destruct Hforce as [-> | ?]; [|discriminate].
      rewrite bool_decide_eq_true_2 by eauto.
      erewrite (bind_eq (remove _)) by (unfold remove; rewrite Hold; reflexivity).
      rewrite Hcls. fold (merged_properties key name ttype props).
      now rewrite Hval.
    - rewrite bool_decide_eq_false_2 by (intros [? ?]; discriminate).
      erewrite (bind_eq (ret _)) by reflexivity.
      rewrite Hcls. fold (merged_properties key name ttype props).
      now rewrite Hval. }
  set (h1 := {| trait_data := <[key := rec]> (trait_data (without key h));
                _cache := _cache (without key h) |}) in *.
  assert (Hmiss : _cache h1 !! key = None).
  { subst h1. cbn [_cache]. unfold without.
    destruct (trait_data h !! key) eqn:Hold; cbn [_cache].
    - apply lookup_delete_eq.
    - destruct (_cache h !! key) eqn:Hc; [|reflexivity].
      destruct (Hcache key) as [? Hsome]; [eauto|congruence]. }
  assert (Hstored : trait_data h1 !! key = Some rec)
    by (subst h1; cbn [trait_data]; apply lookup_insert_eq).
  pose proof (get_cache_miss later classes h1 key ttype cls rec
                Hcls Hextra Hstored Hmiss Hcomplete) as Hget.
  exists h1. eexists. split; [exact Hadd|].
  split; [exact Hstored|].
  split; [|split; [exact Hget|cbn [trait_data]; apply lookup_insert_eq]].
  intros other Hne. subst h1. cbn [trait_data].
  rewrite lookup_insert_ne by congruence. unfold without.
  destruct (trait_data h !! key); [|reflexivity].
  cbn [trait_data]. now rewrite lookup_delete_ne by congruence.
Qed.

Lemma add_then_get_witness :
  exists h1 h2,
    add 1000 _TRAIT_CLASSES "hp" VNone "gauge" true (gauge_fields 100 0) empty_handler
    = (inr tt, h1) /\
    trait_data h1 !! "hp" = Some (plain_gauge 100 0) /\
    get 1000 _TRAIT_CLASSES "hp" h1 = (inr (Some GaugeTrait_class), h2).
Proof.
  destruct (add_then_get 1000 1000 _TRAIT_CLASSES empty_handler "hp" VNone "gauge" true
              (gauge_fields 100 0) (plain_gauge 100 0) GaugeTrait_class)
    as (h1 & h2 & H1 & H2 & _ & H3 & _).
  - reflexivity.
  - reflexivity.
  - intros key [w Hw]. vm_compute in Hw. discriminate.
  - left. reflexivity.
  - vm_compute. reflexivity.
  - exists h1, h2. split; [exact H1|]. split; [exact H2|exact H3].
Defined.

(** X18. The two rejections of [add] that precede validation. Without
    [force], a key already stored is refused and the handler is left as it
    is. An unknown trait type is refused as well, but only after a forced
    [add] has removed the record already stored under the key. *)
Theorem add_rejections (now : Z) (classes : registry) (h : handler)
    (key : string) (name : pyval) (ttype : string) (props : record) :
  (is_Some (trait_data h !! key) ->
   add now classes key name ttype false props h
   = (inl (TraitException (TraitAlreadyExists key)), h))
  /\
  (classes !! ttype = None ->
   add now classes key name ttype true props h
   = (inl (TraitException (TraitTypeInvalid ttype)), without key h)).
Proof.
  split.
  - intros Hsome. unfold add. erewrite (bind_eq (gets _)) by reflexivity.
    now rewrite bool_decide_eq_true_2 by exact Hsome.
  - intros Hcls. unfold add, without. erewrite (bind_eq (gets _)) by reflexivity.
    destruct (trait_data h !! key) as [old|] eqn:Hold.
    + rewrite bool_decide_eq_true_2 by eauto.
      erewrite (bind_eq (remove _)) by (unfold remove; rewrite Hold; reflexivity).
      now rewrite Hcls.
    + rewrite bool_decide_eq_false_2 by (intros [? ?]; discriminate).
      erewrite (bind_eq (ret _)) by reflexivity. now rewrite Hcls.
Qed.

Lemma add_rejections_witness :
  add 1000 _TRAIT_CLASSES "hp" VNone "gauge" false ∅ handler_with_hp
  = (inl (TraitException (TraitAlreadyExists "hp")), handler_with_hp).
Proof.
  apply (proj1 (add_rejections 1000 _TRAIT_CLASSES handler_with_hp "hp" VNone "gauge" ∅)).
  vm_compute. eauto.
Defined.

Lemma for_each_remove (l : list string) :
  forall h : handler,
    NoDup l ->
    (forall key, key ∈ l -> is_Some (trait_data h !! key)) ->
    exists h',
      for_each l remove h = (inr tt, h') /\
      (forall key, trait_data h' !! key
                   = if bool_decide (key ∈ l) then None else trait_data h !! key) /\
      (forall key, _cache h' !! key
                   = if bool_decide (key ∈ l) then None else _cache h !! key).
Proof.
  induction l as [|k rest IH]; intros h Hnd Hall.
  - exists h. split; [reflexivity|]. split; intros key;
      now rewrite bool_decide_eq_false_2 by (apply not_elem_of_nil).
  - apply NoDup_cons in Hnd as [Hnotin Hnd].
    destruct (Hall k (list_elem_of_here k rest)) as [d Hd].
    set (h1 := {| trait_data := delete k (trait_data h);
                  _cache := delete k (_cache h) |}).
    assert (remove k h = (inr tt, h1)) as Hrem
      by (unfold remove; now rewrite Hd).
    destruct (IH h1 Hnd) as (h' & Hrun & Hdata & Hcache).
    { intros key Hin. subst h1. cbn [trait_data].
      rewrite lookup_delete_ne; [apply Hall; now apply list_elem_of_further|].
      intros ->. now apply Hnotin. }
    exists h'. split; [cbn [for_each]; now erewrite bind_eq by exact Hrem|].
    split; intros key.
    + rewrite Hdata. subst h1. cbn [trait_data].
      destruct (decide (key = k)) as [->|Hne].
      * rewrite (bool_decide_eq_true_2 (k ∈ k :: rest)) by apply list_elem_of_here.
        rewrite lookup_delete_eq. now destruct (bool_decide (k ∈ rest)).
      * rewrite lookup_delete_ne by congruence.
        destruct (bool_decide_reflect (key ∈ rest)) as [Hin|Hnin].
        -- now rewrite bool_decide_eq_true_2 by now apply list_elem_of_further.
        -- rewrite bool_decide_eq_false_2; [reflexivity|].
           intros Hin. apply elem_of_cons in Hin as [Heq|Hin];
             [congruence|contradiction].
    + rewrite Hcache. subst h1. cbn [_cache].
      destruct (decide (key = k)) as [->|Hne].
      * rewrite (bool_decide_eq_true_2 (k ∈ k :: rest)) by apply list_elem_of_here.
        rewrite lookup_delete_eq. now destruct (bool_decide (k ∈ rest)).
      * rewrite lookup_delete_ne by congruence.
        destruct (bool_decide_reflect (key ∈ rest)) as [Hin|Hnin].
        -- now rewrite bool_decide_eq_true_2 by now apply list_elem_of_further.
        -- rewrite bool_decide_eq_false_2; [reflexivity|].
           intros Hin. apply elem_of_cons in Hin as [Heq|Hin];
             [congruence|contradiction].
Qed.

Lemma all_keys (h : handler) (key : string) :
  key ∈ all h <-> is_Some (trait_data h !! key).
Proof.
  unfold all. rewrite list_elem_of_In, in_map_iff. split.
  - intros ([k d] & <- & Hin). apply list_elem_of_In, elem_of_map_to_list in Hin.
    simpl. eauto.
  - intros [d Hd]. exists (key, d). split; [reflexivity|].
    now apply list_elem_of_In, elem_of_map_to_list.
Qed.

Lemma clear_result (h : handler) :
  exists h',
    clear h = (inr tt, h') /\
    trait_data h' = ∅ /\ __len__ h' = 0%nat /\ all h' = [] /\
    (cache_consistent h -> _cache h' = ∅).
Proof.
  destruct (for_each_remove (all h) h) as (h' & Hrun & Hdata & Hcache).
  { unfold all. apply (NoDup_fst_map_to_list (trait_data h)). }
  { intros key Hin. now apply all_keys. }
  assert (Hempty : trait_data h' = ∅).
  { apply map_eq. intros key. rewrite Hdata, lookup_empty.
    destruct (bool_decide_reflect (key ∈ all h)) as [Hin|Hnin]; [reflexivity|].
    destruct (trait_data h !! key) eqn:E; [|reflexivity].
    exfalso. apply Hnin, all_keys. eauto. }
  exists h'. split; [exact Hrun|]. split; [exact Hempty|].
  split; [unfold __len__; now rewrite Hempty|].
  split; [unfold all; now rewrite Hempty, map_to_list_empty|].
  intros Hcons. apply map_eq. intros key. rewrite Hcache, lookup_empty.
  destruct (bool_decide_reflect (key ∈ all h)) as [Hin|Hnin]; [reflexivity|].
  destruct (_cache h !! key) eqn:E; [|reflexivity].
  exfalso. apply Hnin, all_keys, Hcons. eauto.
Qed.

(** X19. [clear] removes every stored trait without raising: afterwards the
    store is empty and the handler has length 0; the cache is empty too when
    it held wrappers of stored traits only. *)
Theorem clear_empties (h : handler) :
  exists h',
    clear h = (inr tt, h') /\
    trait_data h' = ∅ /\ __len__ h' = 0%nat /\ all h' = [] /\
    (cache_consistent h -> _cache h' = ∅).
Proof. apply clear_result. Qed.

(** X20. The cache keeps to the store: when the cache holds wrappers of
    stored traits only, it still does after [remove], after [add] (whether
    it succeeds or raises), after [get] and after [clear]. *)
Theorem cache_stays_consistent (now : Z) (classes : registry) (h : handler)
    (key : string) (name : pyval) (ttype : string) (force : bool) (props : record) :
  cache_consistent h ->
  cache_consistent (snd (remove key h)) /\
  cache_consistent (snd (add now classes key name ttype force props h)) /\
  cache_consistent (snd (get now classes key h)) /\
  cache_consistent (snd (clear h)).
Proof.
  intros Hcons.
  assert (Hwithout : cache_consistent (without key h)).
  { unfold without. destruct (trait_data h !! key) eqn:Hd; [|exact Hcons].
    intros k. cbn [trait_data _cache]. rewrite !lookup_delete.
    case_decide; [intros [? ?]; discriminate|apply Hcons]. }
  assert (Hremove : cache_consistent (snd (remove key h))).
  { unfold remove. unfold without in Hwithout.
    destruct (trait_data h !! key); [exact Hwithout|exact Hcons]. }
  split; [exact Hremove|]. split; [|split].
  - unfold add. unfold bind at 1. unfold gets at 1. cbv beta iota.
    assert (Hrest : forall h0, cache_consistent h0 ->
              cache_consistent
                (snd (match classes !! ttype with
                      | None => raise (TraitException (TraitTypeInvalid ttype))
                      | Some trait_class =>
                        match validate_input now trait_class
                                (merged_properties key name ttype props) with
                        | (inl e, _) => raise e
                        | (inr _, trait_properties) => store key trait_properties
                        end
                      end h0))).
    { intros h0 H0. destruct (classes !! ttype) as [cls|]; [|exact H0].
      destruct (validate_input now cls (merged_properties key name ttype props))
        as [[e|[]] rec]; [exact H0|].
      intros k. cbn [store modify snd trait_data _cache].
      intros Hk. rewrite lookup_insert. case_decide; [eauto|now apply H0]. }
    destruct (bool_decide (is_Some (trait_data h !! key))).
    + destruct force.
      * unfold bind. destruct (remove key h) as [[e|[]] h1] eqn:Hr.
        -- exact Hremove.
        -- apply Hrest. exact Hremove.
      * exact Hcons.
    + unfold bind at 1. cbn [ret]. now apply Hrest.
  - unfold get. destruct (_cache h !! key); [exact Hcons|].
    destruct (trait_data h !! key) as [d|] eqn:Hd; [|exact Hcons].
    destruct (d !! "trait_type") as [t|]; [|exact Hcons].
    destruct (_get_trait_class classes t) as [e|cls]; [exact Hcons|].
    destruct (validate_input now cls d) as [[e|[]] d']; cbn [snd];
      intros k; cbn [trait_data _cache]; rewrite !lookup_insert;
      repeat case_decide; eauto; try apply Hcons; congruence.
  - destruct (clear_result h) as (h' & -> & _ & _ & _ & Hc). cbn [snd].
    intros k. rewrite (Hc Hcons), lookup_empty. intros [? ?]; discriminate.
Qed.

Lemma cache_stays_consistent_witness :
  cache_consistent (snd (remove "hp" handler_with_hp)).
Proof.
  apply (cache_stays_consistent 1000 _TRAIT_CLASSES handler_with_hp "hp" VNone "gauge"
           true ∅).
  intros key [w Hw]. vm_compute in Hw. discriminate.
Defined.

Lemma clear_empties_witness :
  exists h', clear handler_with_hp = (inr tt, h') /\ trait_data h' = ∅.
Proof.
  destruct (clear_empties handler_with_hp) as (h' & H1 & H2 & _).
  exists h'. split; [exact H1|exact H2].
Defined.

(** ** The attribute protocol *)

(** X21. Writes to a property without setter are dropped without error: on
    a Static trait, a Counter and a Gauge an assignment to [value] leaves the
    record as it is, and so does an assignment to [name] or [key] on every
    class. Only the base Trait stores a written [value], which the next read
    returns. *)
Theorem read_only_writes_dropped (now : Z) (v : pyval) (d : record) :
  Trait___setattr__ now StaticCls "value" v d = (inr tt, d) /\
  Trait___setattr__ now CounterCls "value" v d = (inr tt, d) /\
  Trait___setattr__ now GaugeCls "value" v d = (inr tt, d) /\
  (forall cls, Trait___setattr__ now cls "name" v d = (inr tt, d) /\
               Trait___setattr__ now cls "key" v d = (inr tt, d)) /\
  (Trait___setattr__ now TraitCls "value" v ;;; Trait_value) d
  = (inr v, <["value" := v]> d).
Proof.
  split; [reflexivity|]. split; [reflexivity|]. split; [reflexivity|].
  split; [intros cls; destruct cls; split; reflexivity|].
  change (Trait___setattr__ now TraitCls "value" v) with (Trait_set_value v).
  unfold Trait_set_value, Trait_value. mstep.
  unfold item. now rewrite lookup_insert_eq.
Qed.

(** X22. Extra properties. Take a name that is neither a property nor a
    schema key of the class, none of the four class attributes
    [__getattr__] answers itself and none of [_data], [__dict__],
    [__class__]. An assignment stores the value in the record and a read
    through [__getattr__] returns it; deleting the name removes the entry,
    after which the read raises [AttributeError] ([KeyError] if the record
    has no ["name"], which the message of the error is formatted from);
    deleting a name the record does not hold does nothing. *)
Theorem extra_property_lifecycle (now : Z) (cls : builtin) (key : string)
    (v : pyval) (d : record) :
  find_property (properties now cls) key = None ->
  default_of (default_keys (class_of cls)) key = None ->
  str_in key class_attributes = false ->
  str_in key wrapper_names = false ->
  Trait___setattr__ now cls key v d = (inr tt, <[key := v]> d) /\
  Trait___getattr__ (class_of cls) key (<[key := v]> d)
  = (inr (Stored v), <[key := v]> d) /\
  Trait___delattr__ now cls key (<[key := v]> d) = (inr tt, delete key d) /\
  Trait___getattr__ (class_of cls) key (delete key d)
  = (inl (if has_key "name" d then AttributeError key else KeyError "name"),
     delete key d) /\
  Trait___delattr__ now cls key (delete key d) = (inr tt, delete key d).
Proof.
  intros Hprop Hdefault Hclass _.
  assert (Hextra : allow_extra_properties (class_of cls) = true)
    by (destruct cls; reflexivity).
  assert (Hname : key <> "name").
  { intros ->. destruct cls; discriminate Hprop. }
  split.
  { unfold Trait___setattr__. now rewrite Hprop, Hextra. }
  split.
  { unfold Trait___getattr__. rewrite Hclass.
    unfold bind, getattr_data. now rewrite lookup_insert_eq. }
  assert (Hda : forall d0 : record, _DA now cls key d0 = (inl (AttributeError key), d0)).
  { intros d0. unfold _DA. now rewrite Hprop. }
  split; [|split].
  - unfold Trait___delattr__. rewrite Hdefault.
    erewrite (bind_eq (gets _)) by reflexivity.
    unfold has_key. rewrite lookup_insert_eq.
    unfold try_attribute_error. rewrite Hda.
    unfold del_item. rewrite lookup_insert_eq. now rewrite delete_insert_eq.
  - unfold Trait___getattr__. rewrite Hclass.
    unfold bind, getattr_data, has_key. rewrite lookup_delete_eq.
    rewrite lookup_delete_ne by congruence.
    destruct (d !! "name"); reflexivity.
  - unfold Trait___delattr__. rewrite Hdefault.
    erewrite (bind_eq (gets _)) by reflexivity.
    unfold has_key. rewrite lookup_delete_eq.
    unfold try_attribute_error. now rewrite Hda.
Qed.

Lemma extra_property_lifecycle_witness :
  Trait___setattr__ 1000 GaugeCls "effect" (VStr "poisoned!") (plain_gauge 100 0)
  = (inr tt, <["effect" := VStr "poisoned!"]> (plain_gauge 100 0)) /\
  Trait___getattr__ GaugeTrait_class "effect"
    (<["effect" := VStr "poisoned!"]> (plain_gauge 100 0))
  = (inr (Stored (VStr "poisoned!")), <["effect" := VStr "poisoned!"]> (plain_gauge 100 0)).
Proof.
  destruct (extra_property_lifecycle 1000 GaugeCls "effect" (VStr "poisoned!")
              (plain_gauge 100 0)) as (Hset & Hget & _); try reflexivity.
  split; [exact Hset | exact Hget].
Defined.

(** X23. Deleting a schema key of one of the four classes never raises: it
    stores the key's declared default, without going through the setter of
    the key, so a Counter's or Gauge's [base], [mod] and [min] are reset
    without the clamping their setters apply. *)
Theorem schema_delete_resets (now : Z) (cls : builtin) (key : string) (dflt : pyval)
    (d : record) :
  default_of (default_keys (class_of cls)) key = Some dflt ->
  Trait___delattr__ now cls key d = (inr tt, <[key := dflt]> d) /\
  item key (<[key := dflt]> d) = (inr dflt, <[key := dflt]> d).
Proof.
  intros Hdefault. split.
  - unfold Trait___delattr__. rewrite Hdefault.
    assert (is_mandatory dflt = false) as ->; [|reflexivity].
    destruct cls; cbn [class_of default_keys Trait_class StaticTrait_class
                       CounterTrait_class GaugeTrait_class default_of] in Hdefault;
      repeat match type of Hdefault with
             | context [String.eqb ?k key] => destruct (String.eqb k key)
             end;
      try discriminate; injection Hdefault as <-; reflexivity.
  - unfold item. now rewrite lookup_insert_eq.
Qed.

Lemma schema_delete_resets_witness :
  Trait___delattr__ 1000 CounterCls "base" (added 1000 "counter" ranged_fields)
  = (inr tt, <["base" := VInt 0]> (added 1000 "counter" ranged_fields)).
Proof.
  apply (schema_delete_resets 1000 CounterCls "base" (VInt 0)
           (added 1000 "counter" ranged_fields)).
  reflexivity.
Defined.

(** X24. A Static trait with numeric [base] and [mod] reads
    [value == base + mod], and a number written to either is in the sum of
    the next read. *)
Theorem static_value_is_sum (now : Z) (d : record) (b m v : Z) :
  d !! "base" = Some (VInt b) -> d !! "mod" = Some (VInt m) ->
  StaticTrait_value d = (inr (VInt (b + m)), d) /\
  (Trait___setattr__ now StaticCls "mod" (VInt v) ;;; StaticTrait_value) d
  = (inr (VInt (b + v)), <["mod" := VInt v]> d) /\
  (Trait___setattr__ now StaticCls "base" (VInt v) ;;; StaticTrait_value) d
  = (inr (VInt (v + m)), <["base" := VInt v]> d).
Proof.
  intros Hb Hm.
  assert (Hvalue : forall (d0 : record) x y,
             d0 !! "base" = Some (VInt x) -> d0 !! "mod" = Some (VInt y) ->
             StaticTrait_value d0 = (inr (VInt (x + y)), d0)).
  { intros d0 x y Hx Hy. unfold StaticTrait_value, StaticTrait_mod. mrun. reflexivity. }
  split; [now apply Hvalue|]. split.
  - change (Trait___setattr__ now StaticCls "mod" (VInt v))
      with (set_item "mod" (VInt v)).
    mstep. apply Hvalue; now simplify_map_eq.
  - change (Trait___setattr__ now StaticCls "base" (VInt v))
      with (set_item "base" (VInt v)).
    mstep. apply Hvalue; now simplify_map_eq.
Qed.

Lemma static_value_is_sum_witness :
  StaticTrait_value (added 1000 "static" strength_fields)
  = (inr (VInt (10 + 2)), added 1000 "static" strength_fields).
Proof.
  apply (static_value_is_sum 1000 (added 1000 "static" strength_fields) 10 2 0);
    reflexivity.
Defined.

(** ** The Ability enumeration *)

(** X25. No two members of [Ability] share a value, so no member is an alias
    of another and looking a member up by its value gives that member
    back. *)
Theorem Ability_value_round_trip (a : Ability) :
  Ability_of_value (Ability_value a) = Some a /\
  (forall a', Ability_value a' = Ability_value a -> a' = a).
Proof.
  split.
  - destruct a; reflexivity.
  - intros a' H. destruct a, a'; first [reflexivity | discriminate H].
Qed.
